(** * Visual compositor: pointer gestures and flatten/export

    A shallow embedding of the geometric core of the compositor:
    the state updates of [App.tsx] ([handleUpdateLayer],
    [handleDeleteLayer], [handleToggleVisibility], [handleDownload]) and
    the pointer handlers of [components/Editor.tsx]
    ([handlePointerDown], [handlePointerMove], [handlePointerUp]).

    JavaScript numbers are idealised as real numbers: [Math.cos],
    [Math.sin], [Math.hypot], [Math.max] and [Math.PI] are the functions
    and constant of the same name of the real line, and [Math.atan2] is
    the two-argument arctangent with values in (-PI, PI].  React state is
    passed explicitly: every handler is a function from the state it
    closes over to the state after its [setState] calls. *)

From Stdlib Require Import ZArith Reals Lra List String Bool.
Import ListNotations.
Open Scope R_scope.

(** ** Numeric helpers of the JavaScript runtime *)

(** [Math.hypot(a, b)]. *)
Definition hypot (a b : R) : R := sqrt (a * a + b * b).

(** [Math.atan2(y, x)] on reals: the angle of the vector (x, y), in
    (-PI, PI]; 0 at the origin. *)
Definition atan2 (y x : R) : R :=
  if Rlt_dec 0 x then atan (y / x)
  else if Rlt_dec x 0 then
         (if Rle_dec 0 y then atan (y / x) + PI else atan (y / x) - PI)
       else if Rlt_dec 0 y then PI / 2
            else if Rlt_dec y 0 then - (PI / 2) else 0.

(** [const toRad = (deg: number) => deg * Math.PI / 180]. *)
Definition toRad (deg : R) : R := deg * PI / 180.

(** A JavaScript string is truthy when it is not empty. *)
Definition truthy_string (s : string) : bool := negb (String.eqb s "").

(** ** Data model *)

(** The [{ x, y }] objects of the editor. *)
Module Point.
Record t := mk { x : R; y : R }.
End Point.

(** [Layer] (declared in [types.ts]; the fields are those of the object
    literal of [handleUploadForeground], the [file] blob apart). *)
Module Layer.
Record t := mk {
  id : string;
  src : string;
  name : string;
  x : R;
  y : R;
  scale : R;
  rotation : R;
  width : R;
  height : R;
  visible : bool
}.
End Layer.

(** [Partial<Layer>], restricted to the fields some caller of
    [onUpdateLayer] sets. *)
Module Partial.
Record t := mk {
  x : option R;
  y : option R;
  scale : option R;
  rotation : option R
}.
End Partial.

(** [EditorState] of [App.tsx] (the [backgroundFile] blob apart). *)
Module EditorState.
Record t := mk {
  backgroundSrc : option string;
  layers : list Layer.t;
  selectedLayerId : option string;
  canvasScale : R
}.
End EditorState.

Inductive DragMode := move | resize | rotate.
Inductive ResizeHandle := nw | ne | sw | se.

Module DragState.
Record t := mk {
  mode : DragMode;
  handle : option ResizeHandle;
  startX : R;
  startY : R;
  startLayerState : Layer.t;
  centerWorldStart : Point.t;
  pivotWorld : option Point.t;
  startDist : option R;
  startAngle : option R
}.
End DragState.

Module CanvasDimensions.
Record t := mk { width : R; height : R }.
End CanvasDimensions.

(** The part of a pointer event the handlers read. *)
Module PointerEvent.
Record t := mk { clientX : R; clientY : R }.
End PointerEvent.

(** [getBoundingClientRect()] of the canvas element: its screen position. *)
Module DOMRect.
Record t := mk { left : R; top : R }.
End DOMRect.

(** ** App.tsx: operations on the layer collection *)

(** [{ ...l, ...updates }]. *)
Definition merge (l : Layer.t) (u : Partial.t) : Layer.t :=
  Layer.mk (Layer.id l) (Layer.src l) (Layer.name l)
    (match Partial.x u with Some v => v | None => Layer.x l end)
    (match Partial.y u with Some v => v | None => Layer.y l end)
    (match Partial.scale u with Some v => v | None => Layer.scale l end)
    (match Partial.rotation u with Some v => v | None => Layer.rotation l end)
    (Layer.width l) (Layer.height l) (Layer.visible l).

Definition set_layers (st : EditorState.t) (ls : list Layer.t)
  : EditorState.t :=
  EditorState.mk (EditorState.backgroundSrc st) ls
    (EditorState.selectedLayerId st) (EditorState.canvasScale st).

Definition handleSelectLayer (i : option string) (st : EditorState.t)
  : EditorState.t :=
  EditorState.mk (EditorState.backgroundSrc st) (EditorState.layers st)
    i (EditorState.canvasScale st).

Definition handleUpdateLayer (i : string) (updates : Partial.t)
  (st : EditorState.t) : EditorState.t :=
  set_layers st
    (map (fun l => if String.eqb (Layer.id l) i then merge l updates else l)
       (EditorState.layers st)).

Definition same_id (a : option string) (i : string) : bool :=
  match a with Some s => String.eqb s i | None => false end.

Definition handleDeleteLayer (i : string) (st : EditorState.t)
  : EditorState.t :=
  EditorState.mk (EditorState.backgroundSrc st)
    (filter (fun l => negb (String.eqb (Layer.id l) i)) (EditorState.layers st))
    (if same_id (EditorState.selectedLayerId st) i then None
     else EditorState.selectedLayerId st)
    (EditorState.canvasScale st).

Definition toggle (l : Layer.t) : Layer.t :=
  Layer.mk (Layer.id l) (Layer.src l) (Layer.name l) (Layer.x l) (Layer.y l)
    (Layer.scale l) (Layer.rotation l) (Layer.width l) (Layer.height l)
    (negb (Layer.visible l)).

Definition handleToggleVisibility (i : string) (st : EditorState.t)
  : EditorState.t :=
  set_layers st
    (map (fun l => if String.eqb (Layer.id l) i then toggle l else l)
       (EditorState.layers st)).

(** [layers.find(l => l.id === layerId)]. *)
Definition find_layer (i : string) (ls : list Layer.t) : option Layer.t :=
  find (fun l => String.eqb (Layer.id l) i) ls.

(** ** Editor.tsx: the pointer handlers *)

(** The editor as one state: the [EditorState] owned by [App], and the
    [dragState], [bgSize] and [isDraggingRef] owned by [Editor]. *)
Module World.
Record t := mk {
  state : EditorState.t;
  dragState : option DragState.t;
  bgSize : CanvasDimensions.t;
  isDraggingRef : bool
}.
End World.

Definition set_state (w : World.t) (st : EditorState.t) : World.t :=
  World.mk st (World.dragState w) (World.bgSize w) (World.isDraggingRef w).

(** The initial [useState] values of [App] and [Editor]. *)
Definition initialWorld : World.t :=
  World.mk (EditorState.mk None [] None 1) None
    (CanvasDimensions.mk 800 600) false.

(** [getLocalCoords]; [rect] is [None] when [canvasRef.current] is null. *)
Definition getLocalCoords (rect : option DOMRect.t) (e : PointerEvent.t)
  : Point.t :=
  match rect with
  | None => Point.mk (PointerEvent.clientX e) (PointerEvent.clientY e)
  | Some r => Point.mk (PointerEvent.clientX e - DOMRect.left r)
                       (PointerEvent.clientY e - DOMRect.top r)
  end.

(** The corner opposite to the dragged handle, in unrotated local space
    relative to the top-left corner (the [switch] of [handlePointerDown]). *)
Definition oppositeCorner (l : Layer.t) (h : ResizeHandle) : Point.t :=
  match h with
  | nw => Point.mk (Layer.width l) (Layer.height l)
  | ne => Point.mk 0 (Layer.height l)
  | sw => Point.mk (Layer.width l) 0
  | se => Point.mk 0 0
  end.

(** The pivot world position of [handlePointerDown]: the opposite
    corner's offset from the center, scaled, rotated, added to the
    center. *)
Definition pivotWorldOf (l : Layer.t) (h : ResizeHandle) : Point.t :=
  let cx := Layer.x l + Layer.width l / 2 in
  let cy := Layer.y l + Layer.height l / 2 in
  let p := oppositeCorner l h in
  let dx := (Point.x p - Layer.width l / 2) * Layer.scale l in
  let dy := (Point.y p - Layer.height l / 2) * Layer.scale l in
  let rad := toRad (Layer.rotation l) in
  let rotatedOffX := dx * cos rad - dy * sin rad in
  let rotatedOffY := dx * sin rad + dy * cos rad in
  Point.mk (cx + rotatedOffX) (cy + rotatedOffY).

Definition handlePointerDown (rect : option DOMRect.t) (e : PointerEvent.t)
  (layerId : string) (mode : DragMode) (handle : option ResizeHandle)
  (w : World.t) : World.t :=
  let st := World.state w in
  let st1 := if same_id (EditorState.selectedLayerId st) layerId then st
             else handleSelectLayer (Some layerId) st in
  match find_layer layerId (EditorState.layers st) with
  | None => set_state w st1
  | Some layer =>
      let m := getLocalCoords rect e in
      let mouseX := Point.x m in
      let mouseY := Point.y m in
      let cx := Layer.x layer + Layer.width layer / 2 in
      let cy := Layer.y layer + Layer.height layer / 2 in
      let state0 :=
        DragState.mk mode handle mouseX mouseY layer (Point.mk cx cy)
          None None None in
      let state1 :=
        match mode, handle with
        | resize, Some h =>
            let pivot := pivotWorldOf layer h in
            DragState.mk mode handle mouseX mouseY layer (Point.mk cx cy)
              (Some pivot)
              (Some (hypot (mouseX - Point.x pivot) (mouseY - Point.y pivot)))
              None
        | rotate, _ =>
            DragState.mk mode handle mouseX mouseY layer (Point.mk cx cy)
              None None (Some (atan2 (mouseY - cy) (mouseX - cx)))
        | _, _ => state0
        end in
      World.mk st1 (Some state1) (World.bgSize w) false
  end.

(** What one call of [handlePointerMove] asks of [onUpdateLayer].
    [NotFinite] marks a division by zero: JavaScript goes on with
    [Infinity] or [NaN], which the real-number model does not have. *)
Inductive Emitted :=
| NoUpdate
| Update (i : string) (u : Partial.t)
| NotFinite.

(** A division whose divisor is checked: [k] goes on with the quotient. *)
Definition div_checked (a b : R) (k : R -> Emitted) : Emitted :=
  if Req_dec_T b 0 then NotFinite else k (a / b).

(** The [resize] branch of [handlePointerMove], after its entry test. *)
Definition resizeUpdate (selectedLayerId : string) (ds : DragState.t)
  (pivot : Point.t) (startDist : R) (curr : Point.t) : Emitted :=
  let startLayerState := DragState.startLayerState ds in
  let centerWorldStart := DragState.centerWorldStart ds in
  let currDist :=
    hypot (Point.x curr - Point.x pivot) (Point.y curr - Point.y pivot) in
  if Rlt_dec currDist 1 then NoUpdate
  else
    div_checked currDist startDist (fun q =>
    let newScale := Rmax 0.05 (Layer.scale startLayerState * q) in
    let pivotToCenterX := Point.x centerWorldStart - Point.x pivot in
    let pivotToCenterY := Point.y centerWorldStart - Point.y pivot in
    div_checked newScale (Layer.scale startLayerState) (fun scaleRatio =>
    let newCenterX := Point.x pivot + pivotToCenterX * scaleRatio in
    let newCenterY := Point.y pivot + pivotToCenterY * scaleRatio in
    let newX := newCenterX - Layer.width startLayerState / 2 in
    let newY := newCenterY - Layer.height startLayerState / 2 in
    Update selectedLayerId
      (Partial.mk (Some newX) (Some newY) (Some newScale) None))).

(** [handlePointerMove]: the new value of [isDraggingRef.current] and the
    call of [onUpdateLayer], if any. *)
Definition handlePointerMove (rect : option DOMRect.t)
  (dragState : option DragState.t) (selectedLayerId : option string)
  (isDraggingRef : bool) (e : PointerEvent.t) : bool * Emitted :=
  match dragState, selectedLayerId with
  | Some ds, Some sel =>
      if truthy_string sel then
        let curr := getLocalCoords rect e in
        let currX := Point.x curr in
        let currY := Point.y curr in
        let startLayerState := DragState.startLayerState ds in
        let centerWorldStart := DragState.centerWorldStart ds in
        (true,
         match DragState.mode ds with
         | move =>
             let dx := currX - DragState.startX ds in
             let dy := currY - DragState.startY ds in
             Update sel
               (Partial.mk (Some (Layer.x startLayerState + dx))
                  (Some (Layer.y startLayerState + dy)) None None)
         | rotate =>
             match DragState.startAngle ds with
             | Some startAngle =>
                 let currAngle :=
                   atan2 (currY - Point.y centerWorldStart)
                         (currX - Point.x centerWorldStart) in
                 (* Math.PI is not zero: this division is always finite *)
                 let degDelta := (currAngle - startAngle) * 180 / PI in
                 Update sel
                   (Partial.mk None None None
                      (Some (Layer.rotation startLayerState + degDelta)))
             | None => NoUpdate
             end
         | resize =>
             match DragState.pivotWorld ds, DragState.startDist ds with
             | Some pivot, Some startDist =>
                 if Req_dec_T startDist 0 then NoUpdate
                 else resizeUpdate sel ds pivot startDist curr
             | _, _ => NoUpdate
             end
         end)
      else (isDraggingRef, NoUpdate)
  | _, _ => (isDraggingRef, NoUpdate)
  end.

(** [handlePointerMove] wired as in [App]: [onUpdateLayer] is
    [handleUpdateLayer].  [None] when the update is not finite. *)
Definition pointerMove (rect : option DOMRect.t) (e : PointerEvent.t)
  (w : World.t) : option World.t :=
  match handlePointerMove rect (World.dragState w)
          (EditorState.selectedLayerId (World.state w))
          (World.isDraggingRef w) e with
  | (r, NoUpdate) =>
      Some (World.mk (World.state w) (World.dragState w) (World.bgSize w) r)
  | (r, Update i u) =>
      Some (World.mk (handleUpdateLayer i u (World.state w))
              (World.dragState w) (World.bgSize w) r)
  | (_, NotFinite) => None
  end.

(** A run of pointer-move events. *)
Fixpoint pointerMoves (rect : option DOMRect.t) (es : list PointerEvent.t)
  (w : World.t) : option World.t :=
  match es with
  | [] => Some w
  | e :: es' =>
      match pointerMove rect e w with
      | Some w' => pointerMoves rect es' w'
      | None => None
      end
  end.

(** [handlePointerUp]. *)
Definition handlePointerUp (w : World.t) : World.t :=
  match World.dragState w with
  | Some _ => World.mk (World.state w) None (World.bgSize w)
                (World.isDraggingRef w)
  | None => w
  end.

(** ** The 2D canvas context *)

(** The current transformation matrix of a 2D context, as a [DOMMatrix]:
    the point (x, y) goes to (a x + c y + e, b x + d y + f). *)
Module Matrix.
Record t := mk { a : R; b : R; c : R; d : R; e : R; f : R }.
Definition identity : t := mk 1 0 0 1 0 0.
(** [mul m n] applies [n] first, then [m]. *)
Definition mul (m n : t) : t :=
  mk (a m * a n + c m * b n) (b m * a n + d m * b n)
     (a m * c n + c m * d n) (b m * c n + d m * d n)
     (a m * e n + c m * f n + e m) (b m * e n + d m * f n + f m).
Definition apply (m : t) (p : Point.t) : Point.t :=
  Point.mk (a m * Point.x p + c m * Point.y p + e m)
           (b m * Point.x p + d m * Point.y p + f m).
Definition translation (tx ty : R) : t := mk 1 0 0 1 tx ty.
Definition rotation (angle : R) : t :=
  mk (cos angle) (sin angle) (- sin angle) (cos angle) 0 0.
Definition scaling (sx sy : R) : t := mk sx 0 0 sy 0 0.
End Matrix.

(** The context calls [handleDownload] makes, and what they do to a
    context: [translate], [rotate] and [scale] multiply the current matrix
    on the right, [save] and [restore] push and pop it, [drawImage]
    paints the image (named by its source) into the given rectangle of
    the current frame. *)
Module Ctx.
Inductive call :=
| save
| restore
| translate (x y : R)
| rotate (angle : R)
| scale (sx sy : R)
| drawImage (img : string) (dx dy dw dh : R).

(** One painted image: the matrix in force and the destination
    rectangle. *)
Record paint := mkPaint {
  img : string; ctm : Matrix.t; dx : R; dy : R; dw : R; dh : R
}.

Record t := mk {
  current : Matrix.t;
  stack : list Matrix.t;
  painted : list paint
}.

Definition fresh : t := mk Matrix.identity [] [].

Definition exec (c : call) (s : t) : t :=
  match c with
  | save => mk (current s) (current s :: stack s) (painted s)
  | restore =>
      match stack s with
      | [] => s
      | m :: rest => mk m rest (painted s)
      end
  | translate x y =>
      mk (Matrix.mul (current s) (Matrix.translation x y)) (stack s)
         (painted s)
  | rotate angle =>
      mk (Matrix.mul (current s) (Matrix.rotation angle)) (stack s)
         (painted s)
  | scale sx sy =>
      mk (Matrix.mul (current s) (Matrix.scaling sx sy)) (stack s)
         (painted s)
  | drawImage i x y w h =>
      mk (current s) (stack s)
         (painted s ++ [mkPaint i (current s) x y w h])
  end.

Definition run (cs : list call) (s : t) : t :=
  fold_left (fun s c => exec c s) cs s.

(** Where the point at offset (u, v) from the top-left corner of the
    destination rectangle of a painted image lands on the canvas. *)
Definition lands (p : paint) (u v : R) : Point.t :=
  Matrix.apply (ctm p) (Point.mk (dx p + u) (dy p + v)).
End Ctx.

(** ** App.tsx: export *)

(** What the browser gives [handleDownload]: whether [canvasRef.current]
    is mounted, whether [getContext('2d')] returns a context, and for each
    image source its natural size, [None] when it fails to load. *)
Module Env.
Record t := mk {
  mounted : bool;
  context2d : bool;
  decode : string -> option CanvasDimensions.t
}.
End Env.

Definition loads (env : Env.t) (s : string) : bool :=
  match Env.decode env s with Some _ => true | None => false end.

(** The size of the canvas element [Editor] renders: its [style] width
    and height, at which it is laid out ([offsetWidth], [offsetHeight]). *)
Definition canvasElement (w : World.t) : CanvasDimensions.t :=
  match EditorState.backgroundSrc (World.state w) with
  | Some backgroundSrc =>
      if truthy_string backgroundSrc then World.bgSize w
      else CanvasDimensions.mk 800 600
  | None => CanvasDimensions.mk 800 600
  end.

(** The context calls of one pass of the loop body of [handleDownload],
    for a layer whose image has loaded. *)
Definition layerCalls (layer : Layer.t) : list Ctx.call :=
  let cx := Layer.x layer + Layer.width layer / 2 in
  let cy := Layer.y layer + Layer.height layer / 2 in
  [ Ctx.save;
    Ctx.translate cx cy;
    Ctx.rotate (Layer.rotation layer * PI / 180);
    Ctx.scale (Layer.scale layer) (Layer.scale layer);
    Ctx.drawImage (Layer.src layer)
      (- Layer.width layer / 2) (- Layer.height layer / 2)
      (Layer.width layer) (Layer.height layer);
    Ctx.restore ].

Arguments layerCalls : simpl never.

(** The [for (const layer of state.layers)] loop: the context calls, and
    the names passed to [console.error]. *)
Fixpoint drawLayers (env : Env.t) (ls : list Layer.t)
  : list Ctx.call * list string :=
  match ls with
  | [] => ([], [])
  | layer :: rest =>
      let (calls, log) := drawLayers env rest in
      if negb (Layer.visible layer) then (calls, log)
      else if loads env (Layer.src layer)
           then (layerCalls layer ++ calls, log)
           else (calls, Layer.name layer :: log)
  end.

Inductive ExportResult :=
| NoExport
    (* returned before drawing: nothing is produced *)
| BackgroundRejected
    (* the promise of the background rejected: nothing is produced *)
| Download (width height : R) (calls : list Ctx.call) (log : list string).
    (* [comfyui-composite.png]: the canvas of that size after the calls *)

Definition handleDownload (env : Env.t) (w : World.t) : ExportResult :=
  let state := World.state w in
  match Env.mounted env, EditorState.backgroundSrc state with
  | true, Some backgroundSrc =>
      if truthy_string backgroundSrc then
        let width := CanvasDimensions.width (canvasElement w) in
        let height := CanvasDimensions.height (canvasElement w) in
        if Env.context2d env then
          if loads env backgroundSrc then
            let (calls, log) := drawLayers env (EditorState.layers state) in
            Download width height
              (Ctx.drawImage backgroundSrc 0 0 width height :: calls) log
          else BackgroundRejected
        else NoExport
      else NoExport
  | _, _ => NoExport
  end.

(** The raster of a download: its size and what was painted, in order. *)
Definition raster (r : ExportResult)
  : option (R * R * list Ctx.paint) :=
  match r with
  | Download width height calls _ =>
      Some (width, height, Ctx.painted (Ctx.run calls Ctx.fresh))
  | _ => None
  end.

(** What one pass of the loop paints for [layer]: its image, into the
    rectangle centered on the origin, under the matrix built by
    [translate], [rotate] and [scale] from the identity. *)
Definition layerPaint (layer : Layer.t) : Ctx.paint :=
  let cx := Layer.x layer + Layer.width layer / 2 in
  let cy := Layer.y layer + Layer.height layer / 2 in
  Ctx.mkPaint (Layer.src layer)
    (Matrix.mul
       (Matrix.mul
          (Matrix.mul Matrix.identity (Matrix.translation cx cy))
          (Matrix.rotation (Layer.rotation layer * PI / 180)))
       (Matrix.scaling (Layer.scale layer) (Layer.scale layer)))
    (- Layer.width layer / 2) (- Layer.height layer / 2)
    (Layer.width layer) (Layer.height layer).

(** The layers the loop draws: visible, and their image loads. *)
Definition drawn (env : Env.t) (ls : list Layer.t) : list Layer.t :=
  filter (fun l => Layer.visible l && loads env (Layer.src l)) ls.

(** ** Background upload and the size of the canvas element *)

(** [handleUploadBackground], for a chosen file with object URL [url]. *)
Definition handleUploadBackground (url : string) (w : World.t) : World.t :=
  let st := World.state w in
  set_state w
    (EditorState.mk (Some url) (EditorState.layers st)
       (EditorState.selectedLayerId st) (EditorState.canvasScale st)).

(** The [img.onload] callback of the [useEffect] of [Editor], for the
    image created for [url]: it runs once the image has loaded. *)
Definition backgroundOnload (env : Env.t) (url : string) (w : World.t)
  : World.t :=
  match Env.decode env url with
  | Some size =>
      World.mk (World.state w) (World.dragState w) size
        (World.isDraggingRef w)
  | None => w
  end.

(** ** The live preview *)

(** The element [Editor] renders for a visible layer is a box at
    [left: x], [top: y] of the layer's width and height, with
    [transform: rotate(rotation deg) scale(scale)] and
    [transform-origin: center center].  [previewPoint l u v] is where the
    point at offset (u, v) from the top-left corner of the box is shown:
    relative to the origin it is scaled, then rotated. *)
Definition previewPoint (l : Layer.t) (u v : R) : Point.t :=
  let ox := Layer.x l + Layer.width l / 2 in
  let oy := Layer.y l + Layer.height l / 2 in
  let px := (Layer.x l + u - ox) * Layer.scale l in
  let py := (Layer.y l + v - oy) * Layer.scale l in
  let rad := toRad (Layer.rotation l) in
  Point.mk (ox + (px * cos rad - py * sin rad))
           (oy + (px * sin rad + py * cos rad)).

(** ** The updates of the gestures, for the statements below *)

(** The update a move gesture emits for the pointer at [e]. *)
Definition moveTo (rect : option DOMRect.t) (ds : DragState.t)
  (e : PointerEvent.t) : Partial.t :=
  let curr := getLocalCoords rect e in
  Partial.mk
    (Some (Layer.x (DragState.startLayerState ds)
           + (Point.x curr - DragState.startX ds)))
    (Some (Layer.y (DragState.startLayerState ds)
           + (Point.y curr - DragState.startY ds)))
    None None.

(** The update a rotate gesture emits for the pointer at [e]. *)
Definition rotateTo (rect : option DOMRect.t) (ds : DragState.t)
  (startAngle : R) (e : PointerEvent.t)
  : Partial.t :=
  let curr := getLocalCoords rect e in
  let c := DragState.centerWorldStart ds in
  Partial.mk None None None
    (Some (Layer.rotation (DragState.startLayerState ds)
           + (atan2 (Point.y curr - Point.y c) (Point.x curr - Point.x c)
              - startAngle) * 180 / PI)).

(** What a resize session keeps true of the layer it drags. *)
Definition anchored (i : string) (h : ResizeHandle) (l : Layer.t)
  (ds : DragState.t) (w : World.t) : Prop :=
  World.dragState w = Some ds
  /\ EditorState.selectedLayerId (World.state w) = Some i
  /\ exists k,
       find_layer i (EditorState.layers (World.state w)) = Some k
       /\ Layer.width k = Layer.width l
       /\ Layer.height k = Layer.height l
       /\ Layer.rotation k = Layer.rotation l
       /\ pivotWorldOf k h = pivotWorldOf l h.

(** Every layer, and the snapshot of a running gesture, has a scale of
    at least 0.05. *)
Definition scalesFloored (w : World.t) : Prop :=
  Forall (fun l => 0.05 <= Layer.scale l)
    (EditorState.layers (World.state w))
  /\ (forall ds, World.dragState w = Some ds ->
      0.05 <= Layer.scale (DragState.startLayerState ds)).

Definition flooredUpdate (u : Partial.t) : Prop :=
  match Partial.scale u with Some s => 0.05 <= s | None => True end.

(** ** The other handlers, and the states the editor can reach *)

(** The [img.onload] callback of [handleUploadForeground], for a file
    with object URL [url]; [newId] is the id drawn from [Math.random]. *)
Definition foregroundOnload (env : Env.t) (newId url fileName : string)
  (w : World.t) : World.t :=
  match Env.decode env url with
  | Some size =>
      let st := World.state w in
      set_state w
        (set_layers st
           (EditorState.layers st
            ++ [Layer.mk newId url fileName 50 50 1 0
                  (CanvasDimensions.width size) (CanvasDimensions.height size)
                  true]))
  | None => w
  end.

(** [handleWheel]. *)
Definition handleWheel (deltaY : R) (w : World.t) : World.t :=
  let st := World.state w in
  match EditorState.selectedLayerId st with
  | Some sel =>
      if truthy_string sel then
        match find_layer sel (EditorState.layers st) with
        | Some layer =>
            let zoomSensitivity := 0.001 in
            let newScale :=
              Rmax 0.1
                (Rmin 5 (Layer.scale layer - deltaY * zoomSensitivity)) in
            set_state w
              (handleUpdateLayer sel
                 (Partial.mk None None (Some newScale) None) st)
        | None => w
        end
      else w
  | None => w
  end.

(** [handleBackgroundClick]. *)
Definition handleBackgroundClick (w : World.t) : World.t :=
  World.mk
    (if World.isDraggingRef w then World.state w
     else handleSelectLayer None (World.state w))
    (World.dragState w) (World.bgSize w) false.

(** An input of the "Active Layer Props" panel of [Controls]: it is
    rendered for [selectedLayer], the layer [find] returns for the
    selected id, and updates the layers with that layer's id. *)
Definition controlsInput (u : Partial.t) (w : World.t) : World.t :=
  let st := World.state w in
  match EditorState.selectedLayerId st with
  | Some sel =>
      match find_layer sel (EditorState.layers st) with
      | Some selectedLayer =>
          set_state w (handleUpdateLayer (Layer.id selectedLayer) u st)
      | None => w
      end
  | None => w
  end.

(** What the user and the browser can do to the editor. *)
Inductive Event :=
| UploadBackground (url : string)
| BackgroundLoaded (url : string)
| ForegroundLoaded (newId url fileName : string)
| SelectLayer (i : string)
| DeleteLayer (i : string)
| ToggleVisibility (i : string)
| ScaleSlider (value : R)
| RotationSlider (value : Z)
| PositionX (value : Z)
| PositionY (value : Z)
| Wheel (deltaY : R)
| BackgroundClick
| PointerDown (e : PointerEvent.t) (layerId : string) (mode : DragMode)
    (handle : option ResizeHandle)
| PointerMove (e : PointerEvent.t)
| PointerUp.

(** The scale slider is an [input type="range" min="0.1" max="3.0"]. *)
Definition inRange (ev : Event) : Prop :=
  match ev with
  | ScaleSlider value => 0.1 <= value <= 3
  | RotationSlider value => (-180 <= value <= 180)%Z
  | _ => True
  end.

(** One event; [None] when a pointer move is not finite. *)
Definition step (env : Env.t) (rect : option DOMRect.t) (ev : Event)
  (w : World.t) : option World.t :=
  match ev with
  | UploadBackground url => Some (handleUploadBackground url w)
  | BackgroundLoaded url => Some (backgroundOnload env url w)
  | ForegroundLoaded newId url fileName =>
      Some (foregroundOnload env newId url fileName w)
  | SelectLayer i =>
      Some (set_state w (handleSelectLayer (Some i) (World.state w)))
  | DeleteLayer i => Some (set_state w (handleDeleteLayer i (World.state w)))
  | ToggleVisibility i =>
      Some (set_state w (handleToggleVisibility i (World.state w)))
  | ScaleSlider value =>
      Some (controlsInput (Partial.mk None None (Some value) None) w)
  | RotationSlider value =>
      Some (controlsInput (Partial.mk None None None (Some (IZR value))) w)
  | PositionX value =>
      Some (controlsInput (Partial.mk (Some (IZR value)) None None None) w)
  | PositionY value =>
      Some (controlsInput (Partial.mk None (Some (IZR value)) None None) w)
  | Wheel deltaY => Some (handleWheel deltaY w)
  | BackgroundClick => Some (handleBackgroundClick w)
  | PointerDown e layerId mode handle =>
      Some (handlePointerDown rect e layerId mode handle w)
  | PointerMove e => pointerMove rect e w
  | PointerUp => Some (handlePointerUp w)
  end.

(** The states reached from the initial one. *)
Inductive Reachable (env : Env.t) (rect : option DOMRect.t)
  : World.t -> Prop :=
| reach_initial : Reachable env rect initialWorld
| reach_step ev w w' :
    Reachable env rect w ->
    inRange ev ->
    step env rect ev w = Some w' ->
    Reachable env rect w'.

(** ** A concrete editor

    Background 800 x 600 and one foreground layer of intrinsic size
    200 x 100, as [handleUploadForeground] creates it: at (50, 50), scale 1,
    rotation 0, visible. *)

Definition sampleLayer : Layer.t :=
  Layer.mk "k3x9f2a" "blob:fg" "fg.png" 50 50 1 0 200 100 true.

Definition sampleWorld : World.t :=
  World.mk (EditorState.mk (Some "blob:bg"%string) [sampleLayer] None 1) None
    (CanvasDimensions.mk 800 600) false.

(** The canvas element at the top-left corner of the viewport. *)
Definition sampleRect : option DOMRect.t := Some (DOMRect.mk 0 0).

(** A browser in which the sample images load and nothing else does. *)
Definition sampleEnv : Env.t :=
  Env.mk true true
    (fun s =>
       if String.eqb s "blob:bg" then Some (CanvasDimensions.mk 800 600)
       else if String.eqb s "blob:big" then Some (CanvasDimensions.mk 1024 768)
       else if String.eqb s "blob:fg" then Some (CanvasDimensions.mk 200 100)
       else None).

(** A layer whose image does not load, and a hidden one. *)
Definition brokenLayer : Layer.t :=
  Layer.mk "q7w1e5r" "blob:gone" "gone.png" 10 20 1 0 64 64 true.

Definition hiddenLayer : Layer.t :=
  Layer.mk "z0m4n8b" "blob:fg" "hidden.png" 0 0 2 90 200 100 false.

(** The scale, and the update, the resize branch computes at pointer
    distance [currDist] from the pivot. *)
Definition scaleAt (ds : DragState.t) (startDist currDist : R) : R :=
  Rmax 0.05
    (Layer.scale (DragState.startLayerState ds) * (currDist / startDist)).

Definition resizeTo (ds : DragState.t) (pivot : Point.t) (newScale : R)
  : Partial.t :=
  let s := DragState.startLayerState ds in
  let c := DragState.centerWorldStart ds in
  Partial.mk
    (Some (Point.x pivot + (Point.x c - Point.x pivot)
                           * (newScale / Layer.scale s)
           - Layer.width s / 2))
    (Some (Point.y pivot + (Point.y c - Point.y pivot)
                           * (newScale / Layer.scale s)
           - Layer.height s / 2))
    (Some newScale) None.

(** The layer of the concrete editor once turned by 45 degrees, and where
    the corner opposite to its south-east handle then is. *)
Definition rotatedLayer : Layer.t :=
  Layer.mk "k3x9f2a" "blob:fg" "fg.png" 50 50 1 45 200 100 true.

Definition rotatedPivot : Point.t :=
  Point.mk (150 - 25 * sqrt 2) (100 - 75 * sqrt 2).

(** ** Further helpers *)

(** [rotatePointAroundCenter] of [Editor.tsx]. *)
Definition rotatePointAroundCenter (x y cx cy rad : R) : Point.t :=
  let cos_rad := cos rad in
  let sin_rad := sin rad in
  let nx := (cos_rad * (x - cx)) - (sin_rad * (y - cy)) + cx in
  let ny := (sin_rad * (x - cx)) + (cos_rad * (y - cy)) + cy in
  Point.mk nx ny.

(** [{ ...u1, ...u2 }] on updates: the fields of [u2] win. *)
Definition overlay (u1 u2 : Partial.t) : Partial.t :=
  Partial.mk
    (match Partial.x u2 with Some v => Some v | None => Partial.x u1 end)
    (match Partial.y u2 with Some v => Some v | None => Partial.y u1 end)
    (match Partial.scale u2 with
     | Some v => Some v
     | None => Partial.scale u1
     end)
    (match Partial.rotation u2 with
     | Some v => Some v
     | None => Partial.rotation u1
     end).

(** The fields of a layer fixed at its creation. *)
Definition intrinsic (l : Layer.t) : string * string * string * R * R :=
  (Layer.id l, Layer.src l, Layer.name l, Layer.width l, Layer.height l).

(** The fields of a layer a resize update does not write. *)
Definition unplaced (l : Layer.t)
  : string * string * string * R * R * R * bool :=
  (Layer.id l, Layer.src l, Layer.name l, Layer.rotation l, Layer.width l,
   Layer.height l, Layer.visible l).

(** What a resize session keeps true of the layer it drags, whatever
    the moves: it is found under the gesture's id, with the fields of the
    snapshot that a resize update does not write. *)
Definition dragging (i : string) (l : Layer.t) (ds : DragState.t)
  (w : World.t) : Prop :=
  World.dragState w = Some ds
  /\ EditorState.selectedLayerId (World.state w) = Some i
  /\ exists k,
       find_layer i (EditorState.layers (World.state w)) = Some k
       /\ unplaced k = unplaced l.

(** * Properties *)

(** ** The layer collection *)

Section Collection.

Variable i : string.

Lemma find_layer_id ls l :
  find_layer i ls = Some l -> Layer.id l = i.
Proof.
  unfold find_layer; intros H.
  apply find_some in H; destruct H as [_ H].
  now apply String.eqb_eq.
Qed.

Lemma find_layer_In ls l :
  find_layer i ls = Some l -> In l ls.
Proof.
  unfold find_layer; intros H; now apply find_some in H.
Qed.

(** An update that keeps the id reaches the layer [find] returns. *)
Lemma find_layer_map (f : Layer.t -> Layer.t) ls l :
  (forall k, Layer.id (f k) = Layer.id k) ->
  find_layer i ls = Some l ->
  find_layer i
    (map (fun k => if String.eqb (Layer.id k) i then f k else k) ls)
  = Some (f l).
Proof.
  intros Hid; unfold find_layer.
  induction ls as [|k ls IH]; simpl; [discriminate|].
  destruct (String.eqb (Layer.id k) i) eqn:E; simpl.
  - rewrite Hid, E; intros H; now inversion H.
  - rewrite E; exact IH.
Qed.

Lemma find_layer_update u ls l :
  find_layer i ls = Some l ->
  find_layer i
    (map (fun k => if String.eqb (Layer.id k) i then merge k u else k) ls)
  = Some (merge l u).
Proof. apply (find_layer_map (fun k => merge k u)); reflexivity. Qed.

(** An update addressed to an absent id changes nothing. *)
Lemma map_absent (f : Layer.t -> Layer.t) ls :
  find_layer i ls = None ->
  map (fun k => if String.eqb (Layer.id k) i then f k else k) ls = ls.
Proof.
  unfold find_layer.
  induction ls as [|k ls IH]; simpl; [reflexivity|].
  destruct (String.eqb (Layer.id k) i); [discriminate|].
  intros H; now rewrite IH.
Qed.

Lemma find_layer_deleted ls :
  find_layer i (filter (fun l => negb (String.eqb (Layer.id l) i)) ls)
  = None.
Proof.
  unfold find_layer.
  induction ls as [|k ls IH]; simpl; [reflexivity|].
  destruct (String.eqb (Layer.id k) i) eqn:E; simpl; [exact IH|].
  now rewrite E.
Qed.

End Collection.

(** ** Facts shared by the gestures *)

Section Gesture.

Variable rect : option DOMRect.t.

Lemma same_id_refl i : same_id (Some i) i = true.
Proof. simpl; apply String.eqb_refl. Qed.

(** Pointer-down on a layer of the list selects it and leaves the
    layers as they are. *)
Lemma pointerDown_state e i m h w l :
  find_layer i (EditorState.layers (World.state w)) = Some l ->
  EditorState.selectedLayerId
    (World.state (handlePointerDown rect e i m h w)) = Some i
  /\ EditorState.layers (World.state (handlePointerDown rect e i m h w))
     = EditorState.layers (World.state w).
Proof.
  intros Hf; unfold handlePointerDown; rewrite Hf; simpl.
  destruct (EditorState.selectedLayerId (World.state w)) as [s|] eqn:Es;
    simpl.
  - destruct (String.eqb s i) eqn:E; simpl.
    + apply String.eqb_eq in E; subst s; now rewrite Es.
    + now split.
  - now split.
Qed.

(** A pointer move changes neither the drag session nor the selection,
    the background or the canvas size. *)
Lemma pointerMove_frame e w w' :
  pointerMove rect e w = Some w' ->
  World.dragState w' = World.dragState w
  /\ EditorState.selectedLayerId (World.state w')
     = EditorState.selectedLayerId (World.state w)
  /\ EditorState.backgroundSrc (World.state w')
     = EditorState.backgroundSrc (World.state w)
  /\ World.bgSize w' = World.bgSize w.
Proof.
  unfold pointerMove.
  destruct (handlePointerMove _ _ _ _ _) as [r [| j u |]];
    intros H; inversion H; subst; simpl; auto.
Qed.

(** Without a selection a pointer move emits nothing. *)
Lemma handlePointerMove_unselected ds r e :
  handlePointerMove rect ds None r e = (r, NoUpdate).
Proof. unfold handlePointerMove; now destruct ds. Qed.

Lemma pointerMoves_unselected es w :
  EditorState.selectedLayerId (World.state w) = None ->
  pointerMoves rect es w = Some w.
Proof.
  intros Hs; induction es as [|e es IH]; simpl; [reflexivity|].
  unfold pointerMove; rewrite Hs, handlePointerMove_unselected.
  destruct w; exact IH.
Qed.

Lemma pointerMoves_frame es : forall w w',
  pointerMoves rect es w = Some w' ->
  World.dragState w' = World.dragState w
  /\ EditorState.selectedLayerId (World.state w')
     = EditorState.selectedLayerId (World.state w).
Proof.
  induction es as [|e es IH]; simpl; intros w w' H.
  - inversion H; auto.
  - destruct (pointerMove rect e w) as [w1|] eqn:E; [|discriminate].
    apply pointerMove_frame in E; destruct E as (E1 & E2 & _).
    apply IH in H; destruct H as [H1 H2].
    now rewrite H1, H2, E1, E2.
Qed.

Lemma pointerMoves_app es1 es2 w :
  pointerMoves rect (es1 ++ es2) w =
  match pointerMoves rect es1 w with
  | Some w1 => pointerMoves rect es2 w1
  | None => None
  end.
Proof.
  revert w; induction es1 as [|e es1 IH]; simpl; intros w; [reflexivity|].
  destruct (pointerMove rect e w); [apply IH | reflexivity].
Qed.

End Gesture.

(** ** The move gesture *)

Section MoveGesture.

Variable rect : option DOMRect.t.

Lemma move_step e w ds i :
  World.dragState w = Some ds ->
  DragState.mode ds = move ->
  EditorState.selectedLayerId (World.state w) = Some i ->
  truthy_string i = true ->
  pointerMove rect e w
  = Some (World.mk (handleUpdateLayer i (moveTo rect ds e) (World.state w))
            (Some ds) (World.bgSize w) true).
Proof.
  intros Hd Hm Hs Ht.
  unfold pointerMove, handlePointerMove.
  now rewrite Hd, Hs, Ht, Hm.
Qed.

Lemma move_steps ds i es : forall e w,
  World.dragState w = Some ds ->
  DragState.mode ds = move ->
  EditorState.selectedLayerId (World.state w) = Some i ->
  truthy_string i = true ->
  exists w',
    pointerMoves rect (es ++ [e]) w = Some w'
    /\ EditorState.layers (World.state w')
       = map (fun k => if String.eqb (Layer.id k) i
                       then merge k (moveTo rect ds e) else k)
           (EditorState.layers (World.state w)).
Proof.
  induction es as [|e0 es IH]; intros e w Hd Hm Hs Ht; simpl.
  - rewrite (move_step e w ds i Hd Hm Hs Ht).
    eexists; split; [reflexivity|reflexivity].
  - rewrite (move_step e0 w ds i Hd Hm Hs Ht).
    destruct (IH e
                (World.mk
                   (handleUpdateLayer i (moveTo rect ds e0) (World.state w))
                   (Some ds) (World.bgSize w) true))
      as (w' & Hrun & Hl); auto.
    exists w'; split; [exact Hrun|].
    rewrite Hl; simpl; rewrite map_map.
    apply map_ext; intros k.
    destruct (String.eqb (Layer.id k) i) eqn:E; [|now rewrite E].
    simpl; rewrite E; reflexivity.
Qed.

(** C7. During a move gesture started by a pointer-down at [e0] on the
    layer [l], after any run of pointer moves ending at [e1] every layer
    with the gesture's id has x = snapshot x + (e1.x - e0.x) and
    y = snapshot y + (e1.y - e0.y), independently; its rotation, scale,
    width, height and the other fields are untouched, as are the other
    layers.  With zero net displacement the layer is as it was. *)
Theorem move_gesture_update e0 es e1 i w l :
  find_layer i (EditorState.layers (World.state w)) = Some l ->
  truthy_string i = true ->
  let X := Layer.x l
           + (PointerEvent.clientX e1 - PointerEvent.clientX e0) in
  let Y := Layer.y l
           + (PointerEvent.clientY e1 - PointerEvent.clientY e0) in
  exists w',
    pointerMoves rect (es ++ [e1]) (handlePointerDown rect e0 i move None w)
    = Some w'
    /\ EditorState.layers (World.state w')
       = map (fun k =>
                if String.eqb (Layer.id k) i
                then Layer.mk (Layer.id k) (Layer.src k) (Layer.name k) X Y
                       (Layer.scale k) (Layer.rotation k) (Layer.width k)
                       (Layer.height k) (Layer.visible k)
                else k)
           (EditorState.layers (World.state w))
    /\ find_layer i (EditorState.layers (World.state w'))
       = Some (Layer.mk (Layer.id l) (Layer.src l) (Layer.name l) X Y
                 (Layer.scale l) (Layer.rotation l) (Layer.width l)
                 (Layer.height l) (Layer.visible l))
    /\ (PointerEvent.clientX e1 = PointerEvent.clientX e0 ->
        PointerEvent.clientY e1 = PointerEvent.clientY e0 ->
        find_layer i (EditorState.layers (World.state w')) = Some l).
Proof.
  intros Hf Ht X Y.
  destruct (pointerDown_state rect e0 i move None w l Hf) as [Hsel Hls].
  assert (Hd : exists ds,
             World.dragState (handlePointerDown rect e0 i move None w)
             = Some ds
             /\ DragState.mode ds = move
             /\ DragState.startLayerState ds = l
             /\ DragState.startX ds = Point.x (getLocalCoords rect e0)
             /\ DragState.startY ds = Point.y (getLocalCoords rect e0)).
  { unfold handlePointerDown; rewrite Hf; simpl.
    eexists; repeat split. }
  destruct Hd as (ds & Hd & Hm & Hsnap & Hsx & Hsy).
  destruct (move_steps ds i es e1 _ Hd Hm Hsel Ht) as (w' & Hrun & Hl).
  assert (HX : Partial.x (moveTo rect ds e1) = Some X).
  { unfold moveTo, X; simpl; rewrite Hsnap, Hsx.
    destruct rect; simpl; f_equal; lra. }
  assert (HY : Partial.y (moveTo rect ds e1) = Some Y).
  { unfold moveTo, Y; simpl; rewrite Hsnap, Hsy.
    destruct rect; simpl; f_equal; lra. }
  assert (Hmerge : forall k,
             merge k (moveTo rect ds e1)
             = Layer.mk (Layer.id k) (Layer.src k) (Layer.name k) X Y
                 (Layer.scale k) (Layer.rotation k) (Layer.width k)
                 (Layer.height k) (Layer.visible k)).
  { intros k; unfold merge; rewrite HX, HY; reflexivity. }
  assert (Hfind : find_layer i (EditorState.layers (World.state w'))
                  = Some (Layer.mk (Layer.id l) (Layer.src l) (Layer.name l)
                            X Y (Layer.scale l) (Layer.rotation l)
                            (Layer.width l) (Layer.height l)
                            (Layer.visible l))).
  { rewrite Hl, Hls, <- Hmerge. now apply find_layer_update. }
  exists w'; split; [exact Hrun|]; split; [|split].
  - rewrite Hl, Hls. apply map_ext; intros k.
    now rewrite Hmerge.
  - exact Hfind.
  - intros Ex Ey; rewrite Hfind; f_equal.
    unfold X, Y; rewrite Ex, Ey.
    replace (Layer.x l + (PointerEvent.clientX e0 - PointerEvent.clientX e0))
      with (Layer.x l) by lra.
    replace (Layer.y l + (PointerEvent.clientY e0 - PointerEvent.clientY e0))
      with (Layer.y l) by lra.
    now destruct l.
Qed.

End MoveGesture.

Lemma move_gesture_update_witness :
  find_layer "k3x9f2a" (EditorState.layers (World.state sampleWorld))
  = Some sampleLayer
  /\ truthy_string "k3x9f2a" = true
  /\ exists w',
       pointerMoves sampleRect
         ([PointerEvent.mk 70 80] ++ [PointerEvent.mk 63 57])
         (handlePointerDown sampleRect (PointerEvent.mk 60 60) "k3x9f2a" move
            None sampleWorld)
       = Some w'
       /\ find_layer "k3x9f2a" (EditorState.layers (World.state w'))
          = Some (Layer.mk "k3x9f2a" "blob:fg" "fg.png" (50 + (63 - 60))
                    (50 + (57 - 60)) 1 0 200 100 true).
Proof.
  split; [reflexivity|]; split; [reflexivity|].
  destruct (move_gesture_update sampleRect (PointerEvent.mk 60 60)
              [PointerEvent.mk 70 80] (PointerEvent.mk 63 57) "k3x9f2a"
              sampleWorld sampleLayer eq_refl eq_refl)
    as (w' & Hrun & _ & Hfind & _).
  exists w'; split; [exact Hrun | exact Hfind].
Defined.

(** ** Deleting the layer of a running gesture *)

Section DeleteMidGesture.

Variable rect : option DOMRect.t.

Lemma handleUpdateLayer_absent i u st :
  find_layer i (EditorState.layers st) = None ->
  handleUpdateLayer i u st = st.
Proof.
  intros H; unfold handleUpdateLayer, set_layers.
  rewrite (map_absent i (fun k => merge k u)) by exact H.
  now destruct st.
Qed.

(** C9. A gesture of any mode is started by a pointer-down on the layer
    [i], some pointer moves follow, then the layer is deleted.  The
    deletion clears the selection; from then on [handlePointerMove]
    returns without calling [onUpdateLayer], so any further run of pointer
    moves succeeds and leaves the whole editor as it is; and an update
    addressed to the deleted id leaves every layer unchanged. *)
Theorem delete_mid_gesture e0 i m h es1 es2 w l w1 :
  find_layer i (EditorState.layers (World.state w)) = Some l ->
  pointerMoves rect es1 (handlePointerDown rect e0 i m h w) = Some w1 ->
  let w2 := set_state w1 (handleDeleteLayer i (World.state w1)) in
  EditorState.selectedLayerId (World.state w2) = None
  /\ find_layer i (EditorState.layers (World.state w2)) = None
  /\ (forall e,
        handlePointerMove rect (World.dragState w2)
          (EditorState.selectedLayerId (World.state w2))
          (World.isDraggingRef w2) e
        = (World.isDraggingRef w2, NoUpdate))
  /\ pointerMoves rect es2 w2 = Some w2
  /\ (forall u, handleUpdateLayer i u (World.state w2) = World.state w2).
Proof.
  intros Hf Hrun w2.
  destruct (pointerDown_state rect e0 i m h w l Hf) as [Hsel _].
  destruct (pointerMoves_frame rect es1 _ _ Hrun) as [_ Hsel1].
  rewrite Hsel in Hsel1.
  assert (Hnone : EditorState.selectedLayerId (World.state w2) = None).
  { unfold w2; simpl; now rewrite Hsel1, same_id_refl. }
  assert (Hgone : find_layer i (EditorState.layers (World.state w2)) = None).
  { unfold w2; simpl; apply find_layer_deleted. }
  split; [exact Hnone|]; split; [exact Hgone|]; split; [|split].
  - intros e; rewrite Hnone; apply handlePointerMove_unselected.
  - now apply pointerMoves_unselected.
  - intros u; now apply handleUpdateLayer_absent.
Qed.

End DeleteMidGesture.

Lemma delete_mid_gesture_witness :
  find_layer "k3x9f2a" (EditorState.layers (World.state sampleWorld))
  = Some sampleLayer
  /\ exists w1,
       pointerMoves sampleRect [PointerEvent.mk 70 80]
         (handlePointerDown sampleRect (PointerEvent.mk 60 60) "k3x9f2a" move
            None sampleWorld) = Some w1
       /\ pointerMoves sampleRect [PointerEvent.mk 90 95; PointerEvent.mk 10 20]
            (set_state w1 (handleDeleteLayer "k3x9f2a" (World.state w1)))
          = Some (set_state w1 (handleDeleteLayer "k3x9f2a" (World.state w1))).
Proof.
  split; [reflexivity|].
  eexists; split; [reflexivity|].
  apply (delete_mid_gesture sampleRect (PointerEvent.mk 60 60) "k3x9f2a" move
           None [PointerEvent.mk 70 80]
           [PointerEvent.mk 90 95; PointerEvent.mk 10 20]
           sampleWorld sampleLayer _ eq_refl eq_refl).
Defined.

(** ** Export: the loop over the layers *)

Section ExportLoop.

Variable env : Env.t.

Lemma drawLayers_app ls1 ls2 :
  drawLayers env (ls1 ++ ls2)
  = (fst (drawLayers env ls1) ++ fst (drawLayers env ls2),
     snd (drawLayers env ls1) ++ snd (drawLayers env ls2)).
Proof.
  induction ls1 as [|l ls1 IH]; simpl.
  - now destruct (drawLayers env ls2).
  - rewrite IH.
    destruct (drawLayers env ls1) as [c1 g1], (drawLayers env ls2) as [c2 g2].
    simpl.
    destruct (Layer.visible l); simpl; [|reflexivity].
    destruct (loads env (Layer.src l)); simpl; [|reflexivity].
    now rewrite <- ?app_assoc.
Qed.

(** The loop draws the visible layers whose image loads, in list order. *)
Lemma drawLayers_calls ls :
  fst (drawLayers env ls) = flat_map layerCalls (drawn env ls).
Proof.
  unfold drawn.
  induction ls as [|l ls IH]; simpl; [reflexivity|].
  destruct (drawLayers env ls) as [c g]; simpl in IH.
  destruct (Layer.visible l); simpl; [|exact IH].
  destruct (loads env (Layer.src l)); simpl; [|exact IH].
  now rewrite IH.
Qed.

(** It logs the visible layers whose image does not load. *)
Lemma drawLayers_log ls :
  snd (drawLayers env ls)
  = map Layer.name
      (filter (fun l => Layer.visible l && negb (loads env (Layer.src l))) ls).
Proof.
  induction ls as [|l ls IH]; simpl; [reflexivity|].
  destruct (drawLayers env ls) as [c g]; simpl in IH.
  destruct (Layer.visible l); simpl; [|exact IH].
  destruct (loads env (Layer.src l)); simpl; [exact IH|].
  now rewrite IH.
Qed.

(** When its preconditions hold the export produces a download. *)
Lemma handleDownload_runs w bg :
  Env.mounted env = true ->
  Env.context2d env = true ->
  EditorState.backgroundSrc (World.state w) = Some bg ->
  truthy_string bg = true ->
  loads env bg = true ->
  handleDownload env w
  = Download (CanvasDimensions.width (World.bgSize w))
      (CanvasDimensions.height (World.bgSize w))
      (Ctx.drawImage bg 0 0 (CanvasDimensions.width (World.bgSize w))
         (CanvasDimensions.height (World.bgSize w))
       :: fst (drawLayers env (EditorState.layers (World.state w))))
      (snd (drawLayers env (EditorState.layers (World.state w)))).
Proof.
  intros Hm Hc Hb Ht Hl.
  unfold handleDownload, canvasElement; rewrite Hm, Hb, Ht, Hc, Hl.
  now destruct (drawLayers env _).
Qed.

End ExportLoop.

(** ** Export: the transform pipeline and the live preview *)

Section ExportPipeline.

Variable env : Env.t.

(** One pass of the loop paints [layerPaint] under the matrix in force
    and gives the context back as it found it. *)
Lemma run_layerCalls l s :
  Ctx.current s = Matrix.identity ->
  Ctx.run (layerCalls l) s
  = Ctx.mk Matrix.identity (Ctx.stack s) (Ctx.painted s ++ [layerPaint l]).
Proof.
  intros H; unfold layerCalls, Ctx.run, layerPaint; simpl.
  now rewrite H.
Qed.

Lemma run_app cs1 cs2 s :
  Ctx.run (cs1 ++ cs2) s = Ctx.run cs2 (Ctx.run cs1 s).
Proof. apply fold_left_app. Qed.

Lemma run_layers ls : forall s,
  Ctx.current s = Matrix.identity ->
  Ctx.run (flat_map layerCalls ls) s
  = Ctx.mk Matrix.identity (Ctx.stack s)
      (Ctx.painted s ++ map layerPaint ls).
Proof.
  induction ls as [|l ls IH]; intros s H.
  - simpl; rewrite app_nil_r; destruct s; simpl in *; now subst.
  - change (flat_map layerCalls (l :: ls))
      with (layerCalls l ++ flat_map layerCalls ls).
    rewrite run_app, run_layerCalls by exact H.
    rewrite IH by reflexivity; simpl.
    now rewrite <- app_assoc.
Qed.

(** The export frame of a layer is the one of its preview element. *)
Lemma layerPaint_preview l u v :
  Ctx.lands (layerPaint l) u v = previewPoint l u v.
Proof.
  unfold Ctx.lands, layerPaint, previewPoint, Matrix.apply, Matrix.mul,
    Matrix.identity, Matrix.translation, Matrix.rotation, Matrix.scaling,
    toRad; simpl.
  f_equal; field.
Qed.

(** C1. An export that runs makes, after drawing the background, for
    each visible layer whose image loads, in list order, exactly the calls
    save, translate to (x + width/2, y + height/2), rotate by
    rotation * PI / 180, scale by (scale, scale), drawImage into the
    rectangle from (-width/2, -height/2) of the intrinsic width and
    height, restore.  Run on a fresh context they paint each such layer
    under translate-rotate-scale from the identity (nothing accumulates:
    the matrix is the identity again and the stack empty at the end), and
    every point of a painted image lands where the preview element at
    left = x, top = y with transform rotate(rotation) scale(scale) and
    transform-origin center shows it. *)
Theorem export_transform_pipeline w bg :
  Env.mounted env = true ->
  Env.context2d env = true ->
  EditorState.backgroundSrc (World.state w) = Some bg ->
  truthy_string bg = true ->
  loads env bg = true ->
  let visibleLayers := drawn env (EditorState.layers (World.state w)) in
  exists width height log,
    handleDownload env w
    = Download width height
        (Ctx.drawImage bg 0 0 width height
         :: flat_map layerCalls visibleLayers) log
    /\ Ctx.run (Ctx.drawImage bg 0 0 width height
                :: flat_map layerCalls visibleLayers) Ctx.fresh
       = Ctx.mk Matrix.identity []
           (Ctx.mkPaint bg Matrix.identity 0 0 width height
            :: map layerPaint visibleLayers)
    /\ (forall l, In l visibleLayers ->
          In l (EditorState.layers (World.state w))
          /\ Layer.visible l = true)
    /\ (forall l u v, Ctx.lands (layerPaint l) u v = previewPoint l u v).
Proof.
  intros Hm Hc Hb Ht Hl visibleLayers.
  do 3 eexists.
  rewrite (handleDownload_runs env w bg Hm Hc Hb Ht Hl), drawLayers_calls.
  split; [reflexivity|]; split; [|split].
  - unfold Ctx.run at 1; simpl fold_left.
    fold (Ctx.run (flat_map layerCalls visibleLayers)).
    unfold Ctx.exec, Ctx.fresh; simpl.
    now rewrite run_layers.
  - intros l Hin; unfold visibleLayers, drawn in Hin.
    apply filter_In in Hin; destruct Hin as [Hin Hv].
    apply andb_true_iff in Hv; tauto.
  - apply layerPaint_preview.
Qed.

End ExportPipeline.

Lemma export_transform_pipeline_witness :
  let w :=
    World.mk (EditorState.mk (Some "blob:bg"%string)
                [sampleLayer; hiddenLayer; brokenLayer] None 1)
      None (CanvasDimensions.mk 800 600) false in
  loads sampleEnv "blob:bg" = true
  /\ handleDownload sampleEnv w
     = Download 800 600
         (Ctx.drawImage "blob:bg" 0 0 800 600 :: layerCalls sampleLayer)
         ["gone.png"%string]
  /\ forall u v,
       Ctx.lands (layerPaint sampleLayer) u v = previewPoint sampleLayer u v.
Proof.
  intros w; split; [reflexivity|].
  destruct (export_transform_pipeline sampleEnv w "blob:bg"%string
              eq_refl eq_refl eq_refl eq_refl eq_refl)
    as (width & height & log & Hrun & _ & _ & Hpre).
  split; [reflexivity | intros u v; apply Hpre].
Defined.

(** ** Export: failures *)

Section ExportFailures.

Variable env : Env.t.

Lemma drawn_without ls1 bad ls2 :
  Layer.visible bad = true ->
  loads env (Layer.src bad) = false ->
  drawn env (ls1 ++ bad :: ls2) = drawn env ls1 ++ drawn env ls2.
Proof.
  intros Hv Hb; unfold drawn; rewrite filter_app; simpl.
  now rewrite Hv, Hb.
Qed.

(** C10. When the background source is absent, the canvas element is not
    mounted or no 2D context is available, the export returns before
    anything is produced: there is no raster.  Otherwise, with a
    background that loads, a visible layer [bad] whose image fails to load
    is skipped and its name logged, and the download is produced: after
    the background, every visible layer before and after [bad] whose
    image loads gets its six context calls and is painted under its own
    translate-rotate-scale matrix, in list order; the log holds the names
    of the layers that failed, [bad] among them. *)
Theorem export_failure_handling w :
  (EditorState.backgroundSrc (World.state w) = None
   \/ Env.mounted env = false \/ Env.context2d env = false ->
   handleDownload env w = NoExport
   /\ raster (handleDownload env w) = None)
  /\ (forall bg pre bad post,
        Env.mounted env = true ->
        Env.context2d env = true ->
        EditorState.backgroundSrc (World.state w) = Some bg ->
        truthy_string bg = true ->
        loads env bg = true ->
        EditorState.layers (World.state w) = pre ++ bad :: post ->
        Layer.visible bad = true ->
        loads env (Layer.src bad) = false ->
        let width := CanvasDimensions.width (World.bgSize w) in
        let height := CanvasDimensions.height (World.bgSize w) in
        let loaded := fun l =>
          Layer.visible l && loads env (Layer.src l) in
        let failed := fun l =>
          Layer.visible l && negb (loads env (Layer.src l)) in
        let callsOf := fun l =>
          [ Ctx.save;
            Ctx.translate (Layer.x l + Layer.width l / 2)
              (Layer.y l + Layer.height l / 2);
            Ctx.rotate (Layer.rotation l * PI / 180);
            Ctx.scale (Layer.scale l) (Layer.scale l);
            Ctx.drawImage (Layer.src l)
              (- Layer.width l / 2) (- Layer.height l / 2)
              (Layer.width l) (Layer.height l);
            Ctx.restore ] in
        let paintOf := fun l =>
          Ctx.mkPaint (Layer.src l)
            (Matrix.mul
               (Matrix.mul
                  (Matrix.mul Matrix.identity
                     (Matrix.translation (Layer.x l + Layer.width l / 2)
                        (Layer.y l + Layer.height l / 2)))
                  (Matrix.rotation (Layer.rotation l * PI / 180)))
               (Matrix.scaling (Layer.scale l) (Layer.scale l)))
            (- Layer.width l / 2) (- Layer.height l / 2)
            (Layer.width l) (Layer.height l) in
        handleDownload env w
        = Download width height
            (Ctx.drawImage bg 0 0 width height
             :: flat_map callsOf (filter loaded pre)
                ++ flat_map callsOf (filter loaded post))
            (map Layer.name (filter failed pre)
             ++ Layer.name bad :: map Layer.name (filter failed post))
        /\ raster (handleDownload env w)
           = Some (width, height,
                   Ctx.mkPaint bg Matrix.identity 0 0 width height
                   :: map paintOf (filter loaded pre)
                      ++ map paintOf (filter loaded post))).
Proof.
  split.
  - intros H.
    assert (E : handleDownload env w = NoExport).
    { destruct H as [H | [H | H]]; unfold handleDownload.
      - rewrite H; now destruct (Env.mounted env).
      - now rewrite H.
      - rewrite H.
        destruct (Env.mounted env); [|reflexivity].
        destruct (EditorState.backgroundSrc (World.state w)) as [b|];
          [|reflexivity].
        now destruct (truthy_string b). }
    now rewrite E.
  - intros bg pre bad post Hm Hc Hb Ht Hl Hls Hv Hbad
      width height loaded failed callsOf paintOf.
    assert (E : handleDownload env w
                = Download width height
                    (Ctx.drawImage bg 0 0 width height
                     :: flat_map layerCalls (drawn env pre ++ drawn env post))
                    (map Layer.name (filter failed pre)
                     ++ Layer.name bad
                        :: map Layer.name (filter failed post))).
    { rewrite (handleDownload_runs env w bg Hm Hc Hb Ht Hl), Hls.
      rewrite drawLayers_calls, drawLayers_log, drawn_without by assumption.
      rewrite filter_app, map_app; simpl.
      now rewrite Hv, Hbad. }
    split.
    + rewrite E, flat_map_app; reflexivity.
    + rewrite E; unfold raster.
      unfold Ctx.run at 1; simpl fold_left.
      fold (Ctx.run (flat_map layerCalls (drawn env pre ++ drawn env post))).
      rewrite run_layers by reflexivity.
      simpl; rewrite map_app; reflexivity.
Qed.

End ExportFailures.

Lemma export_failure_handling_witness :
  let w :=
    World.mk (EditorState.mk (Some "blob:bg"%string)
                [sampleLayer; brokenLayer; rotatedLayer] None 1)
      None (CanvasDimensions.mk 800 600) false in
  loads sampleEnv "blob:bg" = true
  /\ Layer.visible brokenLayer = true
  /\ loads sampleEnv (Layer.src brokenLayer) = false
  /\ handleDownload sampleEnv w
     = Download 800 600
         [ Ctx.drawImage "blob:bg" 0 0 800 600;
           Ctx.save;
           Ctx.translate (50 + 200 / 2) (50 + 100 / 2);
           Ctx.rotate (0 * PI / 180);
           Ctx.scale 1 1;
           Ctx.drawImage "blob:fg" (- 200 / 2) (- 100 / 2) 200 100;
           Ctx.restore;
           Ctx.save;
           Ctx.translate (50 + 200 / 2) (50 + 100 / 2);
           Ctx.rotate (45 * PI / 180);
           Ctx.scale 1 1;
           Ctx.drawImage "blob:fg" (- 200 / 2) (- 100 / 2) 200 100;
           Ctx.restore ]
         ["gone.png"%string].
Proof.
  intros w; repeat (split; [reflexivity|]).
  exact (proj1 (proj2 (export_failure_handling sampleEnv w) "blob:bg"%string
                  [sampleLayer] brokenLayer [rotatedLayer]
                  eq_refl eq_refl eq_refl eq_refl eq_refl eq_refl eq_refl
                  eq_refl)).
Defined.

(** ** Hidden layers and deleted layers *)

Section HiddenLayers.

Variable env : Env.t.

(** For the loop, layers that are all hidden count as removed. *)
Lemma drawLayers_hidden i ls :
  (forall k, In k ls -> Layer.id k = i -> Layer.visible k = true) ->
  drawLayers env
    (map (fun l => if String.eqb (Layer.id l) i then toggle l else l) ls)
  = drawLayers env
      (filter (fun l => negb (String.eqb (Layer.id l) i)) ls).
Proof.
  induction ls as [|l ls IH]; intros Hv; [reflexivity|].
  assert (IH' := IH (fun k Hk => Hv k (or_intror Hk))).
  simpl map; simpl filter.
  destruct (String.eqb (Layer.id l) i) eqn:E.
  - apply String.eqb_eq in E.
    assert (Hl : Layer.visible l = true) by (apply Hv; simpl; auto).
    cbn [negb drawLayers]; rewrite IH'.
    unfold toggle at 1; cbn [Layer.visible]; rewrite Hl; cbn [negb].
    clear IH IH'.
    destruct (drawLayers env (filter _ ls)); reflexivity.
  - cbn [negb drawLayers]; now rewrite IH'.
Qed.

(** C8. When the layer with id [i] is visible (every layer carrying
    that id is), the export after toggling its visibility is the export
    after deleting it: same size, same context calls, so the same
    raster.  After the toggle the layer is still in the list, at the same
    place, with only its [visible] flag changed. *)
Theorem hidden_layer_export w i l :
  find_layer i (EditorState.layers (World.state w)) = Some l ->
  (forall k, In k (EditorState.layers (World.state w)) ->
             Layer.id k = i -> Layer.visible k = true) ->
  let hidden := set_state w (handleToggleVisibility i (World.state w)) in
  let deleted := set_state w (handleDeleteLayer i (World.state w)) in
  handleDownload env hidden = handleDownload env deleted
  /\ raster (handleDownload env hidden) = raster (handleDownload env deleted)
  /\ find_layer i (EditorState.layers (World.state hidden))
     = Some (Layer.mk (Layer.id l) (Layer.src l) (Layer.name l) (Layer.x l)
               (Layer.y l) (Layer.scale l) (Layer.rotation l) (Layer.width l)
               (Layer.height l) false)
  /\ map Layer.id (EditorState.layers (World.state hidden))
     = map Layer.id (EditorState.layers (World.state w))
  /\ find_layer i (EditorState.layers (World.state deleted)) = None.
Proof.
  intros Hf Hv hidden deleted.
  assert (He : handleDownload env hidden = handleDownload env deleted).
  { unfold handleDownload, canvasElement, hidden, deleted; simpl.
    now rewrite (drawLayers_hidden i _ Hv). }
  split; [exact He|]; split; [now rewrite He|]; split; [|split].
  - unfold hidden; simpl.
    rewrite (find_layer_map i toggle _ l) by (reflexivity || exact Hf).
    unfold toggle; rewrite (Hv l); trivial.
    + now apply find_layer_In with i.
    + now apply find_layer_id with (EditorState.layers (World.state w)).
  - unfold hidden; simpl; rewrite map_map.
    apply map_ext; intros k.
    now destruct (String.eqb (Layer.id k) i).
  - unfold deleted; simpl; apply find_layer_deleted.
Qed.

End HiddenLayers.

Lemma hidden_layer_export_witness :
  let w :=
    World.mk (EditorState.mk (Some "blob:bg"%string)
                [brokenLayer; sampleLayer; hiddenLayer] None 1)
      None (CanvasDimensions.mk 800 600) false in
  handleDownload sampleEnv
    (set_state w (handleToggleVisibility "k3x9f2a" (World.state w)))
  = handleDownload sampleEnv
      (set_state w (handleDeleteLayer "k3x9f2a" (World.state w))).
Proof.
  intros w.
  refine (proj1 (hidden_layer_export sampleEnv w "k3x9f2a" sampleLayer
                   eq_refl _)).
  intros k [H | [H | [H | []]]] Hid; subst k; try reflexivity;
    discriminate Hid.
Defined.

(** ** The size of the exported raster *)

Section ExportSize.

Variable env : Env.t.
Variable rect : option DOMRect.t.

Lemma pointerMoves_size es : forall w w',
  pointerMoves rect es w = Some w' ->
  World.bgSize w' = World.bgSize w
  /\ EditorState.backgroundSrc (World.state w')
     = EditorState.backgroundSrc (World.state w).
Proof.
  induction es as [|e es IH]; simpl; intros w w' H.
  - inversion H; auto.
  - destruct (pointerMove rect e w) as [w1|] eqn:E; [|discriminate].
    apply pointerMove_frame in E; destruct E as (_ & _ & E1 & E2).
    apply IH in H; destruct H as [H1 H2].
    now rewrite H1, H2, E1, E2.
Qed.

(** An export that runs produces a raster of the size of the canvas
    element, which is the [bgSize] the editor has recorded; right after
    the load handler of the current background has run, and through any
    pointer moves after it, that is the background's natural width and
    height. *)
Theorem export_size w url size :
  Env.mounted env = true ->
  Env.context2d env = true ->
  EditorState.backgroundSrc (World.state w) = Some url ->
  truthy_string url = true ->
  Env.decode env url = Some size ->
  (exists calls log,
     handleDownload env w
     = Download (CanvasDimensions.width (World.bgSize w))
         (CanvasDimensions.height (World.bgSize w)) calls log)
  /\ (forall es w',
        pointerMoves rect es (backgroundOnload env url w) = Some w' ->
        exists calls log,
          handleDownload env w'
          = Download (CanvasDimensions.width size)
              (CanvasDimensions.height size) calls log).
Proof.
  intros Hm Hc Hb Ht Hd.
  assert (Hl : loads env url = true) by (unfold loads; now rewrite Hd).
  split.
  - do 2 eexists; exact (handleDownload_runs env w url Hm Hc Hb Ht Hl).
  - intros es w' Hrun.
    apply pointerMoves_size in Hrun; destruct Hrun as [Hs Hb'].
    unfold backgroundOnload in Hs, Hb'; rewrite Hd in Hs, Hb'.
    simpl in Hs, Hb'; rewrite Hb in Hb'.
    do 2 eexists.
    rewrite (handleDownload_runs env w' url Hm Hc Hb' Ht Hl), Hs.
    reflexivity.
Qed.

End ExportSize.

Lemma export_size_witness :
  let w := handleUploadBackground "blob:big" initialWorld in
  Env.decode sampleEnv "blob:big" = Some (CanvasDimensions.mk 1024 768)
  /\ exists calls log,
       handleDownload sampleEnv (backgroundOnload sampleEnv "blob:big" w)
       = Download 1024 768 calls log.
Proof.
  intros w; split; [reflexivity|].
  exact (proj2 (export_size sampleEnv None w "blob:big"%string
                  (CanvasDimensions.mk 1024 768)
                  eq_refl eq_refl eq_refl eq_refl eq_refl)
           [] _ eq_refl).
Defined.

(** C5.  The raster of an export should have the natural width and
    height of the background.  The code breaks this: an export made after
    the upload of a 1024 x 768 background and before the load handler of
    its image has run is produced, and is 800 x 600. *)
Lemma export_size_before_onload :
  let w := handleUploadBackground "blob:big" initialWorld in
  Env.decode sampleEnv "blob:big" = Some (CanvasDimensions.mk 1024 768)
  /\ handleDownload sampleEnv w
     = Download 800 600 [Ctx.drawImage "blob:big" 0 0 800 600] []
  /\ 800 <> 1024 /\ 600 <> 768.
Proof.
  intros w; split; [reflexivity|]; split; [reflexivity|]; split; lra.
Qed.

(** ** Scales stay positive *)

Section Reachability.

Variable env : Env.t.
Variable rect : option DOMRect.t.

Lemma update_floored i u ls :
  flooredUpdate u ->
  Forall (fun l => 0.05 <= Layer.scale l) ls ->
  Forall (fun l => 0.05 <= Layer.scale l)
    (map (fun k => if String.eqb (Layer.id k) i then merge k u else k) ls).
Proof.
  unfold flooredUpdate; intros Hu Hls.
  induction Hls as [|k ls Hk _ IH]; simpl; constructor; [|exact IH].
  destruct (String.eqb (Layer.id k) i); [|exact Hk].
  unfold merge; simpl.
  now destruct (Partial.scale u).
Qed.

Lemma resizeUpdate_floored sel ds pivot startDist curr i u :
  resizeUpdate sel ds pivot startDist curr = Update i u -> flooredUpdate u.
Proof.
  unfold resizeUpdate, div_checked.
  destruct (Rlt_dec _ 1); [discriminate|].
  destruct (Req_dec_T startDist 0); [discriminate|].
  destruct (Req_dec_T _ 0); [discriminate|].
  intros H; inversion H; subst; unfold flooredUpdate; simpl.
  apply Rmax_l.
Qed.

Lemma emitted_floored ds sel r e i u :
  snd (handlePointerMove rect ds sel r e) = Update i u -> flooredUpdate u.
Proof.
  unfold handlePointerMove.
  destruct ds as [ds|]; [|discriminate].
  destruct sel as [sel|]; [|discriminate].
  destruct (truthy_string sel); [|discriminate]; simpl.
  destruct (DragState.mode ds).
  - intros H; inversion H; exact I.
  - destruct (DragState.pivotWorld ds) as [pivot|]; [|discriminate].
    destruct (DragState.startDist ds) as [d|]; [|discriminate].
    destruct (Req_dec_T d 0); [discriminate|].
    apply resizeUpdate_floored.
  - destruct (DragState.startAngle ds); [|discriminate].
    intros H; inversion H; exact I.
Qed.

Lemma step_floored ev w w' :
  inRange ev -> step env rect ev w = Some w' ->
  scalesFloored w -> scalesFloored w'.
Proof.
  intros Hr Hstep [Hls Hds].
  destruct ev; simpl in Hstep, Hr;
    try (inversion Hstep; subst w'; clear Hstep).
  - split; assumption.
  - unfold backgroundOnload; destruct (Env.decode env url); split; assumption.
  - unfold foregroundOnload; destruct (Env.decode env url);
      [|split; assumption].
    split; [|exact Hds]; simpl.
    apply Forall_app; split; [exact Hls|].
    repeat constructor; simpl; lra.
  - split; assumption.
  - split; [|exact Hds]; simpl.
    apply Forall_forall; intros l Hl; apply filter_In in Hl.
    destruct Hl as [Hl _]; revert l Hl; now apply Forall_forall.
  - split; [|exact Hds]; simpl.
    induction Hls as [|k ls Hk _ IH]; simpl; constructor; [|exact IH].
    now destruct (String.eqb (Layer.id k) i).
  - unfold controlsInput.
    destruct (EditorState.selectedLayerId (World.state w));
      [|split; assumption].
    destruct (find_layer _ _); [|split; assumption].
    split; [|exact Hds]; simpl.
    apply update_floored; [unfold flooredUpdate; simpl; lra | exact Hls].
  - unfold controlsInput.
    destruct (EditorState.selectedLayerId (World.state w));
      [|split; assumption].
    destruct (find_layer _ _); [|split; assumption].
    split; [|exact Hds]; simpl.
    apply update_floored; [exact I | exact Hls].
  - unfold controlsInput.
    destruct (EditorState.selectedLayerId (World.state w));
      [|split; assumption].
    destruct (find_layer _ _); [|split; assumption].
    split; [|exact Hds]; simpl.
    apply update_floored; [exact I | exact Hls].
  - unfold controlsInput.
    destruct (EditorState.selectedLayerId (World.state w));
      [|split; assumption].
    destruct (find_layer _ _); [|split; assumption].
    split; [|exact Hds]; simpl.
    apply update_floored; [exact I | exact Hls].
  - unfold handleWheel.
    destruct (EditorState.selectedLayerId (World.state w)) as [sel|];
      [|split; assumption].
    destruct (truthy_string sel); [|split; assumption].
    destruct (find_layer _ _); [|split; assumption].
    split; [|exact Hds]; simpl.
    apply update_floored; [|exact Hls].
    unfold flooredUpdate; simpl.
    apply Rle_trans with 0.1; [lra | apply Rmax_l].
  - split; [|exact Hds]; simpl.
    now destruct (World.isDraggingRef w).
  - unfold handlePointerDown.
    destruct (find_layer layerId (EditorState.layers (World.state w)))
      as [layer|] eqn:Hf.
    + assert (Hlayer : 0.05 <= Layer.scale layer).
      { apply find_layer_In in Hf; revert layer Hf.
        now apply Forall_forall. }
      split; simpl.
      * now destruct (same_id _ _).
      * intros ds E; inversion E; subst ds; clear E.
        destruct mode; [exact Hlayer | | exact Hlayer].
        now destruct handle.
    + split; simpl; [now destruct (same_id _ _) | exact Hds].
  - unfold pointerMove in Hstep.
    destruct (handlePointerMove rect (World.dragState w) _ _ e)
      as [r em] eqn:E.
    destruct em as [| j u |]; inversion Hstep; subst w'; clear Hstep.
    + split; assumption.
    + split; [|exact Hds]; simpl.
      apply update_floored; [|exact Hls].
      apply (emitted_floored (World.dragState w)
               (EditorState.selectedLayerId (World.state w))
               (World.isDraggingRef w) e j).
      now rewrite E.
  - unfold handlePointerUp.
    destruct (World.dragState w) eqn:E.
    + split; [exact Hls | simpl; discriminate].
    + split; [exact Hls | intros ds H; rewrite E in H; discriminate].
Qed.

(** In every state the editor reaches, scales are at least 0.05. *)
Lemma reachable_floored w :
  Reachable env rect w ->
  Forall (fun l => 0.05 <= Layer.scale l)
    (EditorState.layers (World.state w))
  /\ (forall ds, World.dragState w = Some ds ->
      0.05 <= Layer.scale (DragState.startLayerState ds)).
Proof.
  induction 1 as [|ev w w' _ IH Hr Hstep].
  - split; [constructor | discriminate].
  - exact (step_floored ev w w' Hr Hstep IH).
Qed.

Lemma reachable_layer_scale w i l :
  Reachable env rect w ->
  find_layer i (EditorState.layers (World.state w)) = Some l ->
  Layer.scale l <> 0.
Proof.
  intros Hw Hf.
  destruct (reachable_floored w Hw) as [Hls _].
  apply find_layer_In in Hf.
  assert (H : 0.05 <= Layer.scale l)
    by (revert l Hf; now apply Forall_forall).
  lra.
Qed.


End Reachability.

(** ** The resize gesture *)

Section ResizeGesture.

Variable env : Env.t.
Variable rect : option DOMRect.t.

Lemma resizeUpdate_cases sel ds pivot startDist curr :
  startDist <> 0 ->
  Layer.scale (DragState.startLayerState ds) <> 0 ->
  let currDist :=
    hypot (Point.x curr - Point.x pivot) (Point.y curr - Point.y pivot) in
  (currDist < 1 /\ resizeUpdate sel ds pivot startDist curr = NoUpdate)
  \/ (1 <= currDist
      /\ resizeUpdate sel ds pivot startDist curr
         = Update sel (resizeTo ds pivot (scaleAt ds startDist currDist))).
Proof.
  intros Hd Hs currDist; unfold resizeUpdate, div_checked.
  fold currDist.
  destruct (Rlt_dec currDist 1) as [Hlt | Hge]; [left; now split|].
  right; split; [lra|].
  destruct (Req_dec_T startDist 0) as [E | _]; [contradiction|].
  destruct (Req_dec_T (Layer.scale (DragState.startLayerState ds)) 0)
    as [E | _]; [contradiction|].
  reflexivity.
Qed.

(** What [handlePointerMove] emits in a resize session. *)
Lemma resize_emitted ds pivot startDist sel r e :
  DragState.mode ds = resize ->
  DragState.pivotWorld ds = Some pivot ->
  DragState.startDist ds = Some startDist ->
  snd (handlePointerMove rect (Some ds) (Some sel) r e)
  = if truthy_string sel
    then if Req_dec_T startDist 0 then NoUpdate
         else resizeUpdate sel ds pivot startDist (getLocalCoords rect e)
    else NoUpdate.
Proof.
  intros Hm Hp Hd; unfold handlePointerMove.
  destruct (truthy_string sel); [|reflexivity].
  now rewrite Hm, Hp, Hd.
Qed.



(** The drag session a pointer-down on a corner handle records. *)
Lemma pointerDown_resize e0 i h w l :
  find_layer i (EditorState.layers (World.state w)) = Some l ->
  let m := getLocalCoords rect e0 in
  let pivot := pivotWorldOf l h in
  World.dragState (handlePointerDown rect e0 i resize (Some h) w)
  = Some (DragState.mk resize (Some h) (Point.x m) (Point.y m) l
            (Point.mk (Layer.x l + Layer.width l / 2)
                      (Layer.y l + Layer.height l / 2))
            (Some pivot)
            (Some (hypot (Point.x m - Point.x pivot)
                         (Point.y m - Point.y pivot)))
            None).
Proof.
  intros Hf m pivot; unfold handlePointerDown; now rewrite Hf.
Qed.

(** The algebra of the fixed pivot: whatever the new scale, the layer
    placed by the resize update has its opposite corner where the
    snapshot had it. *)
Lemma resizeTo_pivot ds l h k newScale :
  DragState.startLayerState ds = l ->
  DragState.centerWorldStart ds
  = Point.mk (Layer.x l + Layer.width l / 2)
             (Layer.y l + Layer.height l / 2) ->
  Layer.scale l <> 0 ->
  Layer.width k = Layer.width l ->
  Layer.height k = Layer.height l ->
  Layer.rotation k = Layer.rotation l ->
  pivotWorldOf (merge k (resizeTo ds (pivotWorldOf l h) newScale)) h
  = pivotWorldOf l h.
Proof.
  intros Hs Hc Hn Hw Hh Hr.
  unfold resizeTo; rewrite Hs, Hc.
  unfold pivotWorldOf, merge, oppositeCorner; simpl.
  rewrite Hw, Hh, Hr.
  destruct h; simpl; f_equal; field; exact Hn.
Qed.

Lemma anchored_step i h l ds startDist e w :
  DragState.mode ds = resize ->
  DragState.startLayerState ds = l ->
  DragState.centerWorldStart ds
  = Point.mk (Layer.x l + Layer.width l / 2)
             (Layer.y l + Layer.height l / 2) ->
  DragState.pivotWorld ds = Some (pivotWorldOf l h) ->
  DragState.startDist ds = Some startDist ->
  Layer.scale l <> 0 ->
  anchored i h l ds w ->
  exists w', pointerMove rect e w = Some w' /\ anchored i h l ds w'.
Proof.
  intros Hm Hs Hc Hp Hd Hn (Hds & Hsel & k & Hk & Hw & Hh & Hr & Hpk).
  assert (He := resize_emitted ds _ startDist i (World.isDraggingRef w) e
                  Hm Hp Hd).
  unfold pointerMove; rewrite Hds, Hsel.
  destruct (handlePointerMove rect (Some ds) (Some i)
              (World.isDraggingRef w) e) as [r em].
  simpl in He; subst em.
  assert (Hsame : anchored i h l ds
                    (World.mk (World.state w) (Some ds) (World.bgSize w) r)).
  { split; [reflexivity|]; split; [exact Hsel|].
    exists k; auto. }
  destruct (truthy_string i); [|eexists; split; [reflexivity | exact Hsame]].
  destruct (Req_dec_T startDist 0) as [E | N];
    [eexists; split; [reflexivity | exact Hsame]|].
  assert (Hn' : Layer.scale (DragState.startLayerState ds) <> 0)
    by now rewrite Hs.
  destruct (resizeUpdate_cases i ds (pivotWorldOf l h) startDist
              (getLocalCoords rect e) N Hn') as [[_ H] | [_ H]];
    rewrite H; (eexists; split; [reflexivity|]); [exact Hsame|].
  split; [reflexivity|]; split; [exact Hsel|].
  eexists; split; [simpl; apply find_layer_update; exact Hk|].
  split; [exact Hw|]; split; [exact Hh|]; split; [exact Hr|].
  now apply resizeTo_pivot.
Qed.

(** The fixed pivot for a layer whose scale is not zero. *)
Lemma resize_pivot_at e0 i h w l es :
  find_layer i (EditorState.layers (World.state w)) = Some l ->
  Layer.scale l <> 0 ->
  exists w' ds l',
    pointerMoves rect es (handlePointerDown rect e0 i resize (Some h) w)
    = Some w'
    /\ World.dragState w' = Some ds
    /\ DragState.pivotWorld ds = Some (pivotWorldOf l h)
    /\ find_layer i (EditorState.layers (World.state w')) = Some l'
    /\ Layer.rotation l' = Layer.rotation l
    /\ Layer.width l' = Layer.width l
    /\ Layer.height l' = Layer.height l
    /\ pivotWorldOf l' h = pivotWorldOf l h.
Proof.
  intros Hf Hn.
  assert (Hds := pointerDown_resize e0 i h w l Hf); cbv zeta in Hds.
  destruct (pointerDown_state rect e0 i resize (Some h) w l Hf) as [Hsel Hls].
  set (w0 := handlePointerDown rect e0 i resize (Some h) w) in *.
  match type of Hds with _ = Some ?d => set (ds := d) in * end.
  assert (H0 : anchored i h l ds w0).
  { split; [exact Hds|]; split; [exact Hsel|].
    exists l; rewrite Hls; auto. }
  clearbody w0; clear Hds Hsel Hls.
  revert w0 H0; induction es as [|e es IH]; intros w0 H0.
  - destruct H0 as (Hds & _ & k & Hk & Hw & Hh & Hr & Hp).
    exists w0, ds, k; repeat split; auto.
  - destruct (anchored_step i h l ds _ e w0 eq_refl eq_refl eq_refl eq_refl
                eq_refl Hn H0) as (w1 & Hstep & H1).
    simpl; rewrite Hstep; now apply IH.
Qed.

(** A resize gesture of one accepted move, in closed form. *)
Lemma resize_run e0 e1 i h w l :
  find_layer i (EditorState.layers (World.state w)) = Some l ->
  truthy_string i = true ->
  Layer.scale l <> 0 ->
  let pivot := pivotWorldOf l h in
  let p0 := getLocalCoords rect e0 in
  let p1 := getLocalCoords rect e1 in
  let startDist :=
    hypot (Point.x p0 - Point.x pivot) (Point.y p0 - Point.y pivot) in
  let currDist :=
    hypot (Point.x p1 - Point.x pivot) (Point.y p1 - Point.y pivot) in
  startDist <> 0 ->
  1 <= currDist ->
  let ds :=
    DragState.mk resize (Some h) (Point.x p0) (Point.y p0) l
      (Point.mk (Layer.x l + Layer.width l / 2)
                (Layer.y l + Layer.height l / 2))
      (Some pivot) (Some startDist) None in
  exists w',
    pointerMoves rect [e1] (handlePointerDown rect e0 i resize (Some h) w)
    = Some w'
    /\ World.dragState w' = Some ds
    /\ EditorState.layers (World.state w')
       = map (fun k =>
                if String.eqb (Layer.id k) i
                then merge k (resizeTo ds pivot (scaleAt ds startDist currDist))
                else k)
           (EditorState.layers (World.state w)).
Proof.
  intros Hf Ht Hn pivot p0 p1 startDist currDist Hd Hc ds.
  assert (Hds := pointerDown_resize e0 i h w l Hf); cbv zeta in Hds.
  fold pivot p0 startDist ds in Hds.
  destruct (pointerDown_state rect e0 i resize (Some h) w l Hf) as [Hsel Hls].
  assert (He := resize_emitted ds pivot startDist i
                  (World.isDraggingRef
                     (handlePointerDown rect e0 i resize (Some h) w))
                  e1 eq_refl eq_refl eq_refl).
  rewrite Ht in He.
  destruct (Req_dec_T startDist 0) as [E | _]; [contradiction|].
  destruct (resizeUpdate_cases i ds pivot startDist p1 Hd Hn)
    as [[Hlt _] | [_ H]]; [fold currDist in Hlt; lra|].
  fold currDist in H; unfold p1 in H; rewrite H in He.
  simpl pointerMoves; unfold pointerMove; rewrite Hds, Hsel.
  destruct (handlePointerMove rect (Some ds) (Some i) _ e1) as [r em].
  simpl in He; subst em.
  eexists; split; [reflexivity|]; split; [reflexivity|].
  simpl; now rewrite Hls.
Qed.


(** C2. In any state the editor reaches, a resize gesture is started by
    a pointer-down on the handle [h] of the layer [l]; any run of pointer
    moves follows.  Every move is processed, the session keeps the pivot
    recorded at gesture start, the layer keeps its rotation and intrinsic
    size, and the pivot recomputed from its updated x, y and scale (the
    opposite corner's offset from the center, times the scale, rotated,
    added to the center) is the recorded one: updates ignored, accepted
    or floored at 0.05 alike. *)
Theorem resize_pivot_invariant e0 i h w l es :
  Reachable env rect w ->
  find_layer i (EditorState.layers (World.state w)) = Some l ->
  exists w' ds l',
    pointerMoves rect es (handlePointerDown rect e0 i resize (Some h) w)
    = Some w'
    /\ World.dragState w' = Some ds
    /\ DragState.pivotWorld ds = Some (pivotWorldOf l h)
    /\ find_layer i (EditorState.layers (World.state w')) = Some l'
    /\ Layer.rotation l' = Layer.rotation l
    /\ Layer.width l' = Layer.width l
    /\ Layer.height l' = Layer.height l
    /\ pivotWorldOf l' h = pivotWorldOf l h.
Proof.
  intros Hw Hf.
  apply resize_pivot_at; [exact Hf|].
  exact (reachable_layer_scale env rect w i l Hw Hf).
Qed.

End ResizeGesture.

(** ** The two-argument arctangent *)

Section Atan2.

Lemma atan2_right y x : 0 < x -> atan2 y x = atan (y / x).
Proof.
  intros H; unfold atan2; destruct (Rlt_dec 0 x); [reflexivity | lra].
Qed.

Lemma atan2_upper_left y x :
  x < 0 -> 0 <= y -> atan2 y x = atan (y / x) + PI.
Proof.
  intros Hx Hy; unfold atan2.
  destruct (Rlt_dec 0 x); [lra|].
  destruct (Rlt_dec x 0); [|lra].
  destruct (Rle_dec 0 y); [reflexivity | lra].
Qed.

Lemma atan2_lower_left y x :
  x < 0 -> y < 0 -> atan2 y x = atan (y / x) - PI.
Proof.
  intros Hx Hy; unfold atan2.
  destruct (Rlt_dec 0 x); [lra|].
  destruct (Rlt_dec x 0); [|lra].
  destruct (Rle_dec 0 y); [lra | reflexivity].
Qed.

Lemma atan2_up y : 0 < y -> atan2 y 0 = PI / 2.
Proof.
  intros H; unfold atan2.
  destruct (Rlt_dec 0 0); [lra|].
  destruct (Rlt_dec 0 y); [reflexivity | lra].
Qed.

Lemma atan2_down y : y < 0 -> atan2 y 0 = - (PI / 2).
Proof.
  intros H; unfold atan2.
  destruct (Rlt_dec 0 0); [lra|].
  destruct (Rlt_dec 0 y); [lra|].
  destruct (Rlt_dec y 0); [reflexivity | lra].
Qed.

Lemma tan_shift_PI a : cos a <> 0 -> tan (a + PI) = tan a.
Proof.
  intros H; unfold tan; rewrite neg_sin, neg_cos; field; exact H.
Qed.

Lemma polar_quotient r a :
  0 < r -> cos a <> 0 -> r * sin a / (r * cos a) = tan a.
Proof. intros Hr Hc; unfold tan; field; split; lra. Qed.

(** [atan2] recovers the polar angle of a point, whatever its distance
    from the origin. *)
Lemma atan2_polar r a :
  0 < r -> - PI < a <= PI -> atan2 (r * sin a) (r * cos a) = a.
Proof.
  intros Hr [Hlo Hhi].
  assert (Hpi := PI_RGT_0).
  destruct (Rlt_dec a (- (PI / 2))) as [H1 | H1].
  - (* third quadrant *)
    assert (Hc : cos a < 0).
    { rewrite <- cos_neg; apply cos_lt_0; lra. }
    assert (Hs : sin a < 0) by (apply sin_lt_0_var; lra).
    rewrite atan2_lower_left by nra.
    rewrite polar_quotient by lra.
    rewrite <- tan_shift_PI by lra.
    rewrite atan_tan by lra; lra.
  - destruct (Req_dec_T a (- (PI / 2))) as [E | N1].
    + subst a; rewrite cos_neg, sin_neg, cos_PI2, sin_PI2.
      replace (r * 0) with 0 by ring.
      apply atan2_down; lra.
    + destruct (Rlt_dec a (PI / 2)) as [H2 | H2].
      * assert (Hc : 0 < cos a) by (apply cos_gt_0; lra).
        rewrite atan2_right by nra.
        rewrite polar_quotient by lra.
        apply atan_tan; lra.
      * destruct (Req_dec_T a (PI / 2)) as [E | N2].
        -- subst a; rewrite cos_PI2, sin_PI2.
           replace (r * 0) with 0 by ring.
           apply atan2_up; lra.
        -- (* second quadrant *)
           assert (Hc : cos a < 0) by (apply cos_lt_0; lra).
           assert (Hs : 0 <= sin a) by (apply sin_ge_0; lra).
           rewrite atan2_upper_left by nra.
           rewrite polar_quotient by lra.
           assert (Hc' : cos (a - PI) <> 0).
           { replace (cos a) with (cos ((a - PI) + PI)) in Hc
               by (f_equal; lra).
             rewrite neg_cos in Hc; lra. }
           replace (tan a) with (tan ((a - PI) + PI)) by (f_equal; lra).
           rewrite tan_shift_PI by exact Hc'.
           rewrite atan_tan by lra; lra.
Qed.

Lemma sin_cos_turns a (n : nat) :
  sin (a - 2 * INR n * PI) = sin a /\ cos (a - 2 * INR n * PI) = cos a.
Proof.
  split.
  - rewrite <- (sin_period (a - 2 * INR n * PI) n); f_equal; lra.
  - rewrite <- (cos_period (a - 2 * INR n * PI) n); f_equal; lra.
Qed.

Lemma sin_cos_turnsZ a (k : Z) :
  sin (a + 2 * IZR k * PI) = sin a /\ cos (a + 2 * IZR k * PI) = cos a.
Proof.
  destruct (Z_le_gt_dec 0 k) as [H | H].
  - rewrite <- (Z2Nat.id k H), <- INR_IZR_INZ.
    split; [apply sin_period | apply cos_period].
  - assert (Hk : k = (- Z.of_nat (Z.to_nat (- k)))%Z).
    { rewrite Z2Nat.id; [ring | apply Z.opp_nonneg_nonpos].
      now apply Z.lt_le_incl, Z.gt_lt. }
    rewrite Hk, opp_IZR, <- INR_IZR_INZ.
    replace (a + 2 * - INR (Z.to_nat (- k)) * PI)
      with (a - 2 * INR (Z.to_nat (- k)) * PI) by lra.
    apply sin_cos_turns.
Qed.

(** Every angle has a representative in (-PI, PI]. *)
Lemma principal_angle a :
  exists k : Z, - PI < a + 2 * IZR k * PI <= PI.
Proof.
  assert (Hpi := PI_RGT_0).
  destruct (archimed ((- PI - a) / (2 * PI))) as [Hup1 Hup2].
  exists (up ((- PI - a) / (2 * PI))).
  set (k := IZR (up ((- PI - a) / (2 * PI)))) in *.
  assert (E : - PI - a = (- PI - a) / (2 * PI) * (2 * PI)) by (field; lra).
  split; nra.
Qed.

(** Off the principal range [atan2] gives the angle up to whole turns. *)
Lemma atan2_polar_turns r a :
  0 < r -> exists k : Z, atan2 (r * sin a) (r * cos a) = a + 2 * IZR k * PI.
Proof.
  intros Hr; destruct (principal_angle a) as [k Hk].
  exists k.
  destruct (sin_cos_turnsZ a k) as [Es Ec].
  rewrite <- Es, <- Ec.
  now apply atan2_polar.
Qed.

End Atan2.

(** ** The rotate gesture *)

Section RotateGesture.

Variable rect : option DOMRect.t.

Lemma rotate_step e w ds startAngle i :
  World.dragState w = Some ds ->
  DragState.mode ds = rotate ->
  DragState.startAngle ds = Some startAngle ->
  EditorState.selectedLayerId (World.state w) = Some i ->
  truthy_string i = true ->
  pointerMove rect e w
  = Some (World.mk
            (handleUpdateLayer i (rotateTo rect ds startAngle e)
               (World.state w))
            (Some ds) (World.bgSize w) true).
Proof.
  intros Hd Hm Ha Hs Ht.
  unfold pointerMove, handlePointerMove.
  now rewrite Hd, Hs, Ht, Hm, Ha.
Qed.

Lemma rotate_steps ds startAngle i es : forall e w,
  World.dragState w = Some ds ->
  DragState.mode ds = rotate ->
  DragState.startAngle ds = Some startAngle ->
  EditorState.selectedLayerId (World.state w) = Some i ->
  truthy_string i = true ->
  exists w',
    pointerMoves rect (es ++ [e]) w = Some w'
    /\ EditorState.layers (World.state w')
       = map (fun k => if String.eqb (Layer.id k) i
                       then merge k (rotateTo rect ds startAngle e) else k)
           (EditorState.layers (World.state w)).
Proof.
  induction es as [|e0 es IH]; intros e w Hd Hm Ha Hs Ht; simpl.
  - rewrite (rotate_step e w ds startAngle i Hd Hm Ha Hs Ht).
    eexists; split; reflexivity.
  - rewrite (rotate_step e0 w ds startAngle i Hd Hm Ha Hs Ht).
    destruct (IH e
                (World.mk
                   (handleUpdateLayer i (rotateTo rect ds startAngle e0)
                      (World.state w))
                   (Some ds) (World.bgSize w) true))
      as (w' & Hrun & Hl); auto.
    exists w'; split; [exact Hrun|].
    rewrite Hl; simpl; rewrite map_map.
    apply map_ext; intros k.
    destruct (String.eqb (Layer.id k) i) eqn:E; [|now rewrite E].
    simpl; rewrite E; reflexivity.
Qed.

(** A rotate gesture in closed form: after a pointer-down at [e0] on the
    layer [l] and pointer moves ending at [e1], the layers with the
    gesture's id have the rotation computed from the snapshot, the center
    at gesture start and the two pointer positions; nothing else
    changes. *)
Lemma rotate_run e0 es e1 i h w l :
  find_layer i (EditorState.layers (World.state w)) = Some l ->
  truthy_string i = true ->
  let cx := Layer.x l + Layer.width l / 2 in
  let cy := Layer.y l + Layer.height l / 2 in
  let p0 := getLocalCoords rect e0 in
  let p1 := getLocalCoords rect e1 in
  let startAngle := atan2 (Point.y p0 - cy) (Point.x p0 - cx) in
  let newRotation :=
    Layer.rotation l
    + (atan2 (Point.y p1 - cy) (Point.x p1 - cx) - startAngle) * 180 / PI in
  exists w',
    pointerMoves rect (es ++ [e1]) (handlePointerDown rect e0 i rotate h w)
    = Some w'
    /\ EditorState.layers (World.state w')
       = map (fun k =>
                if String.eqb (Layer.id k) i
                then Layer.mk (Layer.id k) (Layer.src k) (Layer.name k)
                       (Layer.x k) (Layer.y k) (Layer.scale k) newRotation
                       (Layer.width k) (Layer.height k) (Layer.visible k)
                else k)
           (EditorState.layers (World.state w))
    /\ find_layer i (EditorState.layers (World.state w'))
       = Some (Layer.mk (Layer.id l) (Layer.src l) (Layer.name l)
                 (Layer.x l) (Layer.y l) (Layer.scale l) newRotation
                 (Layer.width l) (Layer.height l) (Layer.visible l)).
Proof.
  intros Hf Ht cx cy p0 p1 startAngle newRotation.
  destruct (pointerDown_state rect e0 i rotate h w l Hf) as [Hsel Hls].
  assert (Hd : World.dragState (handlePointerDown rect e0 i rotate h w)
               = Some (DragState.mk rotate h (Point.x p0) (Point.y p0) l
                         (Point.mk cx cy) None None (Some startAngle))).
  { unfold handlePointerDown; rewrite Hf; reflexivity. }
  destruct (rotate_steps _ startAngle i es e1 _ Hd eq_refl eq_refl Hsel Ht)
    as (w' & Hrun & Hl).
  assert (Hmerge : forall k,
             merge k (rotateTo rect
                        (DragState.mk rotate h (Point.x p0) (Point.y p0) l
                           (Point.mk cx cy) None None (Some startAngle))
                        startAngle e1)
             = Layer.mk (Layer.id k) (Layer.src k) (Layer.name k)
                 (Layer.x k) (Layer.y k) (Layer.scale k) newRotation
                 (Layer.width k) (Layer.height k) (Layer.visible k))
    by reflexivity.
  exists w'; split; [exact Hrun|]; split.
  - rewrite Hl, Hls; apply map_ext; intros k; now rewrite Hmerge.
  - rewrite Hl, Hls, <- Hmerge; now apply find_layer_update.
Qed.

(** C3, as the code has it.  After a rotate gesture the layer's rotation
    is the snapshot rotation plus
    (atan2(currY - cy, currX - cx) - startAngle) * 180 / PI, with
    (cx, cy) the center at gesture start; x, y, scale, width, height and
    the other layers are untouched and nothing clamps the result.  When
    the pointer goes from polar angle [a] at distance [r0] of that center
    to polar angle [a + theta] at distance [r1], the rotation changes by
    theta in degrees plus a whole number of turns of 360, whatever the two
    distances; it changes by exactly theta in degrees when [a] and
    [a + theta] both lie in (-PI, PI]. *)
Theorem rotate_gesture_update e0 es e1 i w l :
  find_layer i (EditorState.layers (World.state w)) = Some l ->
  truthy_string i = true ->
  let cx := Layer.x l + Layer.width l / 2 in
  let cy := Layer.y l + Layer.height l / 2 in
  let p0 := getLocalCoords rect e0 in
  let p1 := getLocalCoords rect e1 in
  let startAngle := atan2 (Point.y p0 - cy) (Point.x p0 - cx) in
  let newRotation :=
    Layer.rotation l
    + (atan2 (Point.y p1 - cy) (Point.x p1 - cx) - startAngle) * 180 / PI in
  (exists w',
     pointerMoves rect (es ++ [e1]) (handlePointerDown rect e0 i rotate None w)
     = Some w'
     /\ EditorState.layers (World.state w')
        = map (fun k =>
                 if String.eqb (Layer.id k) i
                 then Layer.mk (Layer.id k) (Layer.src k) (Layer.name k)
                        (Layer.x k) (Layer.y k) (Layer.scale k) newRotation
                        (Layer.width k) (Layer.height k) (Layer.visible k)
                 else k)
            (EditorState.layers (World.state w))
     /\ find_layer i (EditorState.layers (World.state w'))
        = Some (Layer.mk (Layer.id l) (Layer.src l) (Layer.name l)
                  (Layer.x l) (Layer.y l) (Layer.scale l) newRotation
                  (Layer.width l) (Layer.height l) (Layer.visible l)))
  /\ (forall a theta r0 r1,
        0 < r0 -> 0 < r1 ->
        p0 = Point.mk (cx + r0 * cos a) (cy + r0 * sin a) ->
        p1 = Point.mk (cx + r1 * cos (a + theta))
                      (cy + r1 * sin (a + theta)) ->
        (exists k : Z,
           newRotation = Layer.rotation l + theta * 180 / PI + 360 * IZR k)
        /\ (- PI < a <= PI -> - PI < a + theta <= PI ->
            newRotation = Layer.rotation l + theta * 180 / PI)).
Proof.
  intros Hf Ht cx cy p0 p1 startAngle newRotation.
  split; [exact (rotate_run e0 es e1 i None w l Hf Ht)|].
  intros a theta r0 r1 H0 H1 E0 E1.
  assert (Hpi := PI_neq0).
  assert (Es : startAngle = atan2 (r0 * sin a) (r0 * cos a)).
  { unfold startAngle; rewrite E0; simpl; f_equal; lra. }
  assert (Ec : atan2 (Point.y p1 - cy) (Point.x p1 - cx)
               = atan2 (r1 * sin (a + theta)) (r1 * cos (a + theta))).
  { rewrite E1; simpl; f_equal; lra. }
  unfold newRotation; rewrite Ec, Es.
  split.
  - destruct (atan2_polar_turns r0 a H0) as [k0 Hk0].
    destruct (atan2_polar_turns r1 (a + theta) H1) as [k1 Hk1].
    exists (k1 - k0)%Z.
    rewrite Hk0, Hk1, minus_IZR; field; exact Hpi.
  - intros Ha Hat.
    rewrite (atan2_polar r0 a H0 Ha), (atan2_polar r1 _ H1 Hat).
    field; exact Hpi.
Qed.

End RotateGesture.

Lemma rotate_gesture_update_witness :
  find_layer "k3x9f2a" (EditorState.layers (World.state sampleWorld))
  = Some sampleLayer
  /\ truthy_string "k3x9f2a" = true
  /\ 0 < 50
  /\ - PI < 0 <= PI
  /\ - PI < 0 + PI / 4 <= PI
  /\ Layer.rotation sampleLayer
     + (atan2 (150 - 0 - (50 + 100 / 2)) (200 - 0 - (50 + 200 / 2))
        - atan2 (100 - 0 - (50 + 100 / 2)) (200 - 0 - (50 + 200 / 2)))
       * 180 / PI
     = Layer.rotation sampleLayer + PI / 4 * 180 / PI.
Proof.
  assert (Hpi := PI_RGT_0).
  split; [reflexivity|]; split; [reflexivity|]; split; [lra|].
  split; [lra|]; split; [lra|].
  refine (proj2 (proj2 (rotate_gesture_update sampleRect
                          (PointerEvent.mk 200 100) []
                          (PointerEvent.mk 200 150) "k3x9f2a" sampleWorld
                          sampleLayer eq_refl eq_refl)
                   0 (PI / 4) 50 (50 * sqrt 2) _ _ _ _) _ _).
  - lra.
  - assert (H := sqrt_lt_R0 2); lra.
  - simpl; rewrite cos_0, sin_0; f_equal; lra.
  - simpl; rewrite Rplus_0_l, cos_PI4, sin_PI4.
    assert (H := sqrt2_neq_0).
    f_equal; field_simplify; trivial;
      rewrite ?sqrt_sqrt by lra; lra.
  - lra.
  - lra.
Defined.

(** C3, as stated, fails where the pointer crosses the negative x
    half-axis of the center: turning the pointer by 90 degrees about the
    center (150, 100), from (149, 101) to (149, 99), changes the rotation
    by -270 degrees. *)
Lemma rotate_across_branch_cut :
  let e0 := PointerEvent.mk 149 101 in
  let e1 := PointerEvent.mk 149 99 in
  let theta := PI / 2 in
  149 - 150 = cos theta * (149 - 150) - sin theta * (101 - 100)
  /\ 99 - 100 = sin theta * (149 - 150) + cos theta * (101 - 100)
  /\ exists w',
       pointerMoves sampleRect [e1]
         (handlePointerDown sampleRect e0 "k3x9f2a" rotate None sampleWorld)
       = Some w'
       /\ find_layer "k3x9f2a" (EditorState.layers (World.state w'))
          = Some (Layer.mk "k3x9f2a" "blob:fg" "fg.png" 50 50 1 (-270)
                    200 100 true)
       /\ -270 <> Layer.rotation sampleLayer + theta * 180 / PI.
Proof.
  intros e0 e1 theta; unfold theta.
  assert (Hpi := PI_RGT_0).
  rewrite cos_PI2, sin_PI2.
  split; [lra|]; split; [lra|].
  destruct (rotate_run sampleRect e0 [] e1 "k3x9f2a" None sampleWorld
              sampleLayer eq_refl eq_refl) as (w' & Hrun & _ & Hfind).
  exists w'; split; [exact Hrun|]; split.
  - rewrite Hfind; simpl.
    do 2 f_equal.
    replace (99 - 0 - (50 + 100 / 2)) with (-1) by lra.
    replace (101 - 0 - (50 + 100 / 2)) with 1 by lra.
    replace (149 - 0 - (50 + 200 / 2)) with (-1) by lra.
    rewrite atan2_lower_left, atan2_upper_left by lra.
    replace (-1 / -1) with 1 by (field; lra).
    replace (1 / -1) with (Ropp 1) by (field; lra).
    rewrite atan_opp, atan_1; field; lra.
  - simpl; intros H.
    assert (E : PI / 2 * 180 / PI = 90) by (field; lra).
    lra.
Qed.

(** The concrete editor is reached by uploading the two images. *)
Lemma sample_reachable : Reachable sampleEnv sampleRect sampleWorld.
Proof.
  apply (reach_step _ _ (ForegroundLoaded "k3x9f2a" "blob:fg" "fg.png")
           (backgroundOnload sampleEnv "blob:bg"
              (handleUploadBackground "blob:bg" initialWorld)));
    [|exact I|reflexivity].
  apply (reach_step _ _ (BackgroundLoaded "blob:bg")
           (handleUploadBackground "blob:bg" initialWorld));
    [|exact I|reflexivity].
  apply (reach_step _ _ (UploadBackground "blob:bg") initialWorld);
    [constructor|exact I|reflexivity].
Qed.


Lemma resize_pivot_invariant_witness :
  Reachable sampleEnv sampleRect sampleWorld
  /\ find_layer "k3x9f2a" (EditorState.layers (World.state sampleWorld))
     = Some sampleLayer
  /\ exists w' l',
       pointerMoves sampleRect [PointerEvent.mk 450 250; PointerEvent.mk 50 50]
         (handlePointerDown sampleRect (PointerEvent.mk 250 150) "k3x9f2a"
            resize (Some se) sampleWorld)
       = Some w'
       /\ find_layer "k3x9f2a" (EditorState.layers (World.state w')) = Some l'
       /\ pivotWorldOf l' se = pivotWorldOf sampleLayer se.
Proof.
  split; [exact sample_reachable|]; split; [reflexivity|].
  destruct (resize_pivot_invariant sampleEnv sampleRect
              (PointerEvent.mk 250 150) "k3x9f2a" se sampleWorld sampleLayer
              [PointerEvent.mk 450 250; PointerEvent.mk 50 50]
              sample_reachable eq_refl)
    as (w' & ds & l' & Hrun & _ & _ & Hfind & _ & _ & _ & Hpivot).
  exists w', l'; auto.
Defined.

(** ** The scenario: a rotate gesture, then a resize gesture *)

Section Scenario.

Lemma hypot_scale t a b : 0 <= t -> hypot (t * a) (t * b) = t * hypot a b.
Proof.
  intros Ht; unfold hypot.
  replace (t * a * (t * a) + t * b * (t * b))
    with (t * t * (a * a + b * b)) by ring.
  rewrite sqrt_mult by nra.
  now rewrite sqrt_square.
Qed.

Lemma half_sqrt2 : 1 / sqrt 2 = sqrt 2 / 2.
Proof.
  assert (H := sqrt_sqrt 2).
  assert (N := sqrt2_neq_0).
  apply (Rmult_eq_reg_r (2 * sqrt 2)); [|lra].
  field_simplify; [|exact N]; lra.
Qed.

Lemma pivot_unrotated : pivotWorldOf sampleLayer se = Point.mk 50 50.
Proof.
  unfold pivotWorldOf, toRad; simpl.
  replace (0 * PI / 180) with 0 by lra.
  rewrite cos_0, sin_0; f_equal; lra.
Qed.

Lemma pivot_rotated : pivotWorldOf rotatedLayer se = rotatedPivot.
Proof.
  unfold pivotWorldOf, rotatedPivot, toRad; simpl.
  replace (45 * PI / 180) with (PI / 4) by lra.
  rewrite cos_PI4, sin_PI4, half_sqrt2; f_equal; lra.
Qed.

(** The rotation the rotate gesture of the scenario computes. *)
Lemma scenario_rotation :
  Layer.rotation sampleLayer
  + (atan2 (150 - 0 - (50 + 100 / 2)) (200 - 0 - (50 + 200 / 2))
     - atan2 (100 - 0 - (50 + 100 / 2)) (200 - 0 - (50 + 200 / 2)))
    * 180 / PI
  = 45.
Proof.
  assert (Hpi := PI_RGT_0).
  rewrite !atan2_right by lra.
  replace ((150 - 0 - (50 + 100 / 2)) / (200 - 0 - (50 + 200 / 2)))
    with 1 by (field; lra).
  replace ((100 - 0 - (50 + 100 / 2)) / (200 - 0 - (50 + 200 / 2)))
    with 0 by (field; lra).
  rewrite atan_1, atan_0; simpl; field; lra.
Qed.

Lemma scenario_rotate_run :
  exists w1,
    pointerMoves sampleRect [PointerEvent.mk 200 150]
      (handlePointerDown sampleRect (PointerEvent.mk 200 100) "k3x9f2a"
         rotate None sampleWorld)
    = Some w1
    /\ EditorState.layers (World.state w1) = [rotatedLayer].
Proof.
  destruct (rotate_run sampleRect (PointerEvent.mk 200 100) []
              (PointerEvent.mk 200 150) "k3x9f2a" None sampleWorld
              sampleLayer eq_refl eq_refl) as (w1 & Hrun & Hl & _).
  exists w1; split; [exact Hrun|].
  rewrite Hl; simpl.
  unfold rotatedLayer; do 2 f_equal.
  exact scenario_rotation.
Qed.

(** Doubling the distance from the pivot doubles a scale of 1. *)
Lemma scaleAt_double ds d0 d1 :
  Layer.scale (DragState.startLayerState ds) = 1 ->
  d0 <> 0 -> d1 = 2 * d0 -> scaleAt ds d0 d1 = 2.
Proof.
  intros Hs Hd E; unfold scaleAt; rewrite Hs, E.
  replace (1 * (2 * d0 / d0)) with 2 by (field; exact Hd).
  apply Rmax_right; lra.
Qed.

Lemma hypot_sq a b : hypot a b * hypot a b = a * a + b * b.
Proof. unfold hypot; apply sqrt_sqrt; nra. Qed.

Lemma hypot_pos a b : 0 <= hypot a b.
Proof. unfold hypot; apply sqrt_pos. Qed.

End Scenario.

(** A resize gesture from the south-east handle that doubles the
    distance from the pivot, on an editor whose one layer has scale 1. *)
Lemma scenario_resize_run w l e0 e1 :
  EditorState.layers (World.state w) = [l] ->
  Layer.id l = "k3x9f2a"%string ->
  Layer.scale l = 1 ->
  let pivot := pivotWorldOf l se in
  let p0 := getLocalCoords sampleRect e0 in
  let p1 := getLocalCoords sampleRect e1 in
  let d0 := hypot (Point.x p0 - Point.x pivot) (Point.y p0 - Point.y pivot) in
  let d1 := hypot (Point.x p1 - Point.x pivot) (Point.y p1 - Point.y pivot) in
  d0 <> 0 -> 1 <= d1 -> d1 = 2 * d0 ->
  let resized :=
    Layer.mk (Layer.id l) (Layer.src l) (Layer.name l)
      (Point.x pivot + (Layer.x l + Layer.width l / 2 - Point.x pivot) * 2
       - Layer.width l / 2)
      (Point.y pivot + (Layer.y l + Layer.height l / 2 - Point.y pivot) * 2
       - Layer.height l / 2)
      2 (Layer.rotation l) (Layer.width l) (Layer.height l)
      (Layer.visible l) in
  exists w' ds,
    pointerMoves sampleRect [e1]
      (handlePointerDown sampleRect e0 "k3x9f2a" resize (Some se) w)
    = Some w'
    /\ World.dragState w' = Some ds
    /\ DragState.pivotWorld ds = Some pivot
    /\ EditorState.layers (World.state w') = [resized]
    /\ pivotWorldOf resized se = pivot.
Proof.
  intros Hls Hid Hs pivot p0 p1 d0 d1 Hd Hge E resized.
  assert (Hf : find_layer "k3x9f2a" (EditorState.layers (World.state w))
               = Some l).
  { rewrite Hls; unfold find_layer; simpl; now rewrite Hid. }
  assert (Hn : Layer.scale l <> 0) by (rewrite Hs; lra).
  destruct (resize_run sampleRect e0 e1 "k3x9f2a" se w l Hf eq_refl Hn Hd Hge)
    as (w' & Hrun & Hds & Hl).
  fold pivot p0 p1 d0 d1 in Hds, Hl.
  match type of Hds with _ = Some ?d => set (ds := d) in * end.
  rewrite (scaleAt_double ds d0 d1 Hs Hd E) in Hl.
  assert (Hres : EditorState.layers (World.state w') = [resized]).
  { rewrite Hl, Hls; simpl; rewrite Hid; simpl.
    unfold resized, merge, resizeTo; simpl; rewrite Hs.
    f_equal; f_equal; field. }
  exists w', ds; split; [exact Hrun|]; split; [exact Hds|].
  split; [reflexivity|]; split; [exact Hres|].
  unfold resized, pivot, pivotWorldOf; simpl; rewrite Hs.
  f_equal; field.
Qed.

(** C4, as the code has it.  In the editor with background 800 x 600 and
    one layer of size 200 x 100 at (50, 50), scale 1, rotation 0 (center
    (150, 100)): the rotate gesture from (200, 100) to (200, 150) sets the
    rotation to 45 and leaves x and y at 50.  A resize gesture from the
    south-east handle has its pivot at (50, 50) on the layer not yet
    rotated; after the rotation its pivot is the rotated north-west
    corner (150 - 25 sqrt 2, 100 - 75 sqrt 2).  In both cases doubling the
    distance from the pivot sets the scale to 2, and x and y are
    recomputed so that the pivot corner stays where it was. *)
Theorem scenario_rotate_then_resize :
  exists w1,
    pointerMoves sampleRect [PointerEvent.mk 200 150]
      (handlePointerDown sampleRect (PointerEvent.mk 200 100) "k3x9f2a"
         rotate None sampleWorld)
    = Some w1
    /\ EditorState.layers (World.state w1)
       = [Layer.mk "k3x9f2a" "blob:fg" "fg.png" 50 50 1 45 200 100 true]
    /\ (forall e0 e1,
          let p0 := getLocalCoords sampleRect e0 in
          let p1 := getLocalCoords sampleRect e1 in
          let d0 := hypot (Point.x p0 - 50) (Point.y p0 - 50) in
          let d1 := hypot (Point.x p1 - 50) (Point.y p1 - 50) in
          d0 <> 0 -> 1 <= d1 -> d1 = 2 * d0 ->
          let resized :=
            Layer.mk "k3x9f2a" "blob:fg" "fg.png" 150 100 2 0 200 100 true in
          exists w2 ds,
            pointerMoves sampleRect [e1]
              (handlePointerDown sampleRect e0 "k3x9f2a" resize (Some se)
                 sampleWorld)
            = Some w2
            /\ World.dragState w2 = Some ds
            /\ DragState.pivotWorld ds = Some (Point.mk 50 50)
            /\ EditorState.layers (World.state w2) = [resized]
            /\ pivotWorldOf resized se = Point.mk 50 50)
    /\ (forall e0 e1,
          let p0 := getLocalCoords sampleRect e0 in
          let p1 := getLocalCoords sampleRect e1 in
          let d0 := hypot (Point.x p0 - Point.x rotatedPivot)
                          (Point.y p0 - Point.y rotatedPivot) in
          let d1 := hypot (Point.x p1 - Point.x rotatedPivot)
                          (Point.y p1 - Point.y rotatedPivot) in
          d0 <> 0 -> 1 <= d1 -> d1 = 2 * d0 ->
          let resized :=
            Layer.mk "k3x9f2a" "blob:fg" "fg.png" (50 + 25 * sqrt 2)
              (50 + 75 * sqrt 2) 2 45 200 100 true in
          exists w2 ds,
            pointerMoves sampleRect [e1]
              (handlePointerDown sampleRect e0 "k3x9f2a" resize (Some se)
                 (handlePointerUp w1))
            = Some w2
            /\ World.dragState w2 = Some ds
            /\ DragState.pivotWorld ds = Some rotatedPivot
            /\ EditorState.layers (World.state w2) = [resized]
            /\ pivotWorldOf resized se = rotatedPivot).
Proof.
  destruct scenario_rotate_run as (w1 & Hrun & Hl1).
  exists w1; split; [exact Hrun|]; split; [exact Hl1|]; split.
  - intros e0 e1 p0 p1 d0 d1 Hd Hge E resized.
    destruct (scenario_resize_run sampleWorld sampleLayer e0 e1
                eq_refl eq_refl eq_refl) as (w2 & ds & H);
      rewrite ?pivot_unrotated; auto.
    rewrite pivot_unrotated in H.
    destruct H as (H1 & H2 & H3 & H4 & H5).
    assert (Er : Layer.mk (Layer.id sampleLayer) (Layer.src sampleLayer)
                   (Layer.name sampleLayer)
                   (Point.x (Point.mk 50 50)
                    + (Layer.x sampleLayer + Layer.width sampleLayer / 2
                       - Point.x (Point.mk 50 50)) * 2
                    - Layer.width sampleLayer / 2)
                   (Point.y (Point.mk 50 50)
                    + (Layer.y sampleLayer + Layer.height sampleLayer / 2
                       - Point.y (Point.mk 50 50)) * 2
                    - Layer.height sampleLayer / 2)
                   2 (Layer.rotation sampleLayer) (Layer.width sampleLayer)
                   (Layer.height sampleLayer) (Layer.visible sampleLayer)
                 = resized).
    { unfold resized; simpl; f_equal; lra. }
    rewrite Er in H4, H5.
    exists w2, ds; auto.
  - intros e0 e1 p0 p1 d0 d1 Hd Hge E resized.
    assert (Hup : EditorState.layers (World.state (handlePointerUp w1))
                  = [rotatedLayer]).
    { unfold handlePointerUp; now destruct (World.dragState w1). }
    destruct (scenario_resize_run (handlePointerUp w1) rotatedLayer e0 e1
                Hup eq_refl eq_refl) as (w2 & ds & H);
      rewrite ?pivot_rotated; auto.
    rewrite pivot_rotated in H.
    destruct H as (H1 & H2 & H3 & H4 & H5).
    assert (Er : Layer.mk (Layer.id rotatedLayer) (Layer.src rotatedLayer)
                   (Layer.name rotatedLayer)
                   (Point.x rotatedPivot
                    + (Layer.x rotatedLayer + Layer.width rotatedLayer / 2
                       - Point.x rotatedPivot) * 2
                    - Layer.width rotatedLayer / 2)
                   (Point.y rotatedPivot
                    + (Layer.y rotatedLayer + Layer.height rotatedLayer / 2
                       - Point.y rotatedPivot) * 2
                    - Layer.height rotatedLayer / 2)
                   2 (Layer.rotation rotatedLayer) (Layer.width rotatedLayer)
                   (Layer.height rotatedLayer) (Layer.visible rotatedLayer)
                 = resized).
    { unfold resized, rotatedPivot; simpl; f_equal; lra. }
    rewrite Er in H4, H5.
    exists w2, ds; auto.
Qed.

(** C4, as stated, fails: after the rotate gesture of the scenario, a
    resize gesture from the south-east handle records a pivot that is not
    (50, 50). *)
Lemma scenario_pivot_not_50_50 :
  exists w1,
    pointerMoves sampleRect [PointerEvent.mk 200 150]
      (handlePointerDown sampleRect (PointerEvent.mk 200 100) "k3x9f2a"
         rotate None sampleWorld)
    = Some w1
    /\ forall e0, exists ds,
         World.dragState
           (handlePointerDown sampleRect e0 "k3x9f2a" resize (Some se)
              (handlePointerUp w1))
         = Some ds
         /\ DragState.pivotWorld ds
            = Some (Point.mk (150 - 25 * sqrt 2) (100 - 75 * sqrt 2))
         /\ Point.mk (150 - 25 * sqrt 2) (100 - 75 * sqrt 2)
            <> Point.mk 50 50.
Proof.
  destruct scenario_rotate_run as (w1 & Hrun & Hl1).
  exists w1; split; [exact Hrun|].
  intros e0.
  assert (Hf : find_layer "k3x9f2a"
                 (EditorState.layers (World.state (handlePointerUp w1)))
               = Some rotatedLayer).
  { unfold handlePointerUp; destruct (World.dragState w1); simpl;
      now rewrite Hl1. }
  eexists; split; [exact (pointerDown_resize sampleRect e0 _ se _ _ Hf)|].
  split; [simpl; now rewrite pivot_rotated|].
  intros H; inversion H as [[Hx Hy]].
  assert (S2 := sqrt_sqrt 2).
  assert (P := sqrt_pos 2).
  nra.
Qed.

Lemma scenario_rotate_then_resize_witness :
  (exists w2,
     pointerMoves sampleRect [PointerEvent.mk 450 250]
       (handlePointerDown sampleRect (PointerEvent.mk 250 150) "k3x9f2a"
          resize (Some se) sampleWorld)
     = Some w2
     /\ EditorState.layers (World.state w2)
        = [Layer.mk "k3x9f2a" "blob:fg" "fg.png" 150 100 2 0 200 100 true])
  /\ (exists w1 w2,
        pointerMoves sampleRect
          [PointerEvent.mk (150 - 25 * sqrt 2 + 6) (100 - 75 * sqrt 2 + 8)]
          (handlePointerDown sampleRect
             (PointerEvent.mk (150 - 25 * sqrt 2 + 3) (100 - 75 * sqrt 2 + 4))
             "k3x9f2a" resize (Some se) (handlePointerUp w1))
        = Some w2
        /\ EditorState.layers (World.state w2)
           = [Layer.mk "k3x9f2a" "blob:fg" "fg.png" (50 + 25 * sqrt 2)
                (50 + 75 * sqrt 2) 2 45 200 100 true]).
Proof.
  destruct scenario_rotate_then_resize as (w1 & _ & _ & Hplain & Hturned).
  split.
  - destruct (Hplain (PointerEvent.mk 250 150) (PointerEvent.mk 450 250))
      as (w2 & ds & H1 & _ & _ & H4 & _).
    + simpl.
      assert (S := hypot_sq (250 - 0 - 50) (150 - 0 - 50)); nra.
    + simpl.
      assert (S := hypot_sq (450 - 0 - 50) (250 - 0 - 50)).
      assert (P := hypot_pos (450 - 0 - 50) (250 - 0 - 50)); nra.
    + simpl.
      replace (450 - 0 - 50) with (2 * (250 - 0 - 50)) by lra.
      replace (250 - 0 - 50) with (2 * (150 - 0 - 50)) at 2 by lra.
      apply hypot_scale; lra.
    + exists w2; auto.
  - destruct (Hturned
                (PointerEvent.mk (150 - 25 * sqrt 2 + 3)
                   (100 - 75 * sqrt 2 + 4))
                (PointerEvent.mk (150 - 25 * sqrt 2 + 6)
                   (100 - 75 * sqrt 2 + 8)))
      as (w2 & ds & H1 & _ & _ & H4 & _).
    + simpl.
      replace (150 - 25 * sqrt 2 + 3 - 0 - (150 - 25 * sqrt 2)) with 3
        by lra.
      replace (100 - 75 * sqrt 2 + 4 - 0 - (100 - 75 * sqrt 2)) with 4
        by lra.
      assert (S := hypot_sq 3 4); nra.
    + simpl.
      replace (150 - 25 * sqrt 2 + 6 - 0 - (150 - 25 * sqrt 2)) with 6
        by lra.
      replace (100 - 75 * sqrt 2 + 8 - 0 - (100 - 75 * sqrt 2)) with 8
        by lra.
      assert (S := hypot_sq 6 8).
      assert (P := hypot_pos 6 8); nra.
    + simpl.
      replace (150 - 25 * sqrt 2 + 6 - 0 - (150 - 25 * sqrt 2)) with (2 * 3)
        by lra.
      replace (100 - 75 * sqrt 2 + 8 - 0 - (100 - 75 * sqrt 2)) with (2 * 4)
        by lra.
      replace (150 - 25 * sqrt 2 + 3 - 0 - (150 - 25 * sqrt 2)) with 3
        by lra.
      replace (100 - 75 * sqrt 2 + 4 - 0 - (100 - 75 * sqrt 2)) with 4
        by lra.
      apply hypot_scale; lra.
    + exists w1, w2; auto.
Defined.

(** * Further properties of the code *)

(** ** The layer collection of App.tsx *)

Section CollectionAlgebra.

Lemma toggle_toggle l : toggle (toggle l) = l.
Proof. destruct l; unfold toggle; simpl; now rewrite negb_involutive. Qed.

(** Toggling the visibility of an id twice gives the state back. *)
Theorem toggle_visibility_twice i st :
  handleToggleVisibility i (handleToggleVisibility i st) = st.
Proof.
  unfold handleToggleVisibility, set_layers; simpl.
  rewrite map_map.
  replace (map _ (EditorState.layers st)) with (EditorState.layers st).
  - now destruct st.
  - rewrite <- (map_id (EditorState.layers st)) at 1.
    apply map_ext; intros l.
    destruct (String.eqb (Layer.id l) i) eqn:E; simpl; rewrite E;
      [now rewrite toggle_toggle | reflexivity].
Qed.

(** Looking a layer up after a deletion: the deleted id is gone, every
    other id finds the layer it found before. *)
Theorem find_after_delete i j st :
  find_layer j (EditorState.layers (handleDeleteLayer i st))
  = if String.eqb j i then None
    else find_layer j (EditorState.layers st).
Proof.
  unfold handleDeleteLayer, find_layer; simpl.
  destruct (String.eqb j i) eqn:E.
  - apply String.eqb_eq in E; subst j.
    apply (find_layer_deleted i).
  - induction (EditorState.layers st) as [|l ls IH]; simpl; [reflexivity|].
    destruct (String.eqb (Layer.id l) i) eqn:Ei; simpl.
    + destruct (String.eqb (Layer.id l) j) eqn:Ej; [|exact IH].
      apply String.eqb_eq in Ei, Ej; subst.
      rewrite String.eqb_refl in E; discriminate.
    + now destruct (String.eqb (Layer.id l) j).
Qed.

(** Looking a layer up after an update: the updated id finds the merged
    layer, every other id finds the layer it found before; an update of
    an id that is not in the list finds nothing. *)
Theorem find_after_update i j u st :
  find_layer j (EditorState.layers (handleUpdateLayer i u st))
  = if String.eqb j i
    then option_map (fun l => merge l u)
           (find_layer i (EditorState.layers st))
    else find_layer j (EditorState.layers st).
Proof.
  unfold handleUpdateLayer, find_layer; simpl.
  destruct (String.eqb j i) eqn:E.
  - apply String.eqb_eq in E; subst j.
    induction (EditorState.layers st) as [|l ls IH]; simpl; [reflexivity|].
    destruct (String.eqb (Layer.id l) i) eqn:Ei; simpl; rewrite Ei;
      [reflexivity | exact IH].
  - induction (EditorState.layers st) as [|l ls IH]; simpl; [reflexivity|].
    destruct (String.eqb (Layer.id l) i) eqn:Ei; simpl.
    + destruct (String.eqb (Layer.id l) j) eqn:Ej; [|exact IH].
      apply String.eqb_eq in Ei, Ej; subst.
      rewrite String.eqb_refl in E; discriminate.
    + now destruct (String.eqb (Layer.id l) j).
Qed.

Lemma merge_merge l u1 u2 : merge (merge l u1) u2 = merge l (overlay u1 u2).
Proof.
  unfold merge, overlay; simpl.
  destruct (Partial.x u2), (Partial.y u2), (Partial.scale u2),
    (Partial.rotation u2); reflexivity.
Qed.

(** Two updates of one id are the update by their overlay; updates of
    two different ids commute. *)
Theorem update_update i j u1 u2 st :
  handleUpdateLayer i u2 (handleUpdateLayer i u1 st)
  = handleUpdateLayer i (overlay u1 u2) st
  /\ (i <> j ->
      handleUpdateLayer j u2 (handleUpdateLayer i u1 st)
      = handleUpdateLayer i u1 (handleUpdateLayer j u2 st)).
Proof.
  unfold handleUpdateLayer, set_layers; simpl; split.
  - f_equal; rewrite map_map; apply map_ext; intros l.
    destruct (String.eqb (Layer.id l) i) eqn:E; simpl; rewrite E;
      [apply merge_merge | reflexivity].
  - intros N; f_equal; rewrite !map_map; apply map_ext; intros l.
    destruct (String.eqb (Layer.id l) i) eqn:Ei;
      destruct (String.eqb (Layer.id l) j) eqn:Ej; simpl;
      rewrite ?Ei, ?Ej; try reflexivity.
    apply String.eqb_eq in Ei, Ej; congruence.
Qed.

(** Deletions commute, selection included. *)
Theorem delete_delete i j st :
  handleDeleteLayer i (handleDeleteLayer j st)
  = handleDeleteLayer j (handleDeleteLayer i st).
Proof.
  unfold handleDeleteLayer; simpl; f_equal.
  - induction (EditorState.layers st) as [|l ls IH]; simpl; [reflexivity|].
    destruct (String.eqb (Layer.id l) i) eqn:Ei;
      destruct (String.eqb (Layer.id l) j) eqn:Ej; simpl;
      rewrite ?Ei, ?Ej; simpl; now rewrite ?IH.
  - destruct (EditorState.selectedLayerId st) as [s|]; simpl;
      [|reflexivity].
    destruct (String.eqb s i) eqn:Ei; destruct (String.eqb s j) eqn:Ej;
      simpl; rewrite ?Ei, ?Ej; reflexivity.
Qed.

End CollectionAlgebra.

Lemma update_update_witness :
  "a"%string <> "b"%string
  /\ handleUpdateLayer "b" (Partial.mk None None (Some 2) None)
       (handleUpdateLayer "a" (Partial.mk (Some 1) None None None)
          (World.state sampleWorld))
     = handleUpdateLayer "a" (Partial.mk (Some 1) None None None)
         (handleUpdateLayer "b" (Partial.mk None None (Some 2) None)
            (World.state sampleWorld)).
Proof.
  assert (N : "a"%string <> "b"%string) by discriminate.
  split; [exact N|].
  exact (proj2 (update_update "a" "b" (Partial.mk (Some 1) None None None)
                  (Partial.mk None None (Some 2) None)
                  (World.state sampleWorld)) N).
Defined.

(** ** What the events keep *)

Section EventInvariants.

Variable env : Env.t.
Variable rect : option DOMRect.t.

(** In every state the editor reaches, every layer has a scale of at
    least 0.05. *)
Theorem scale_floor_reachable w l :
  Reachable env rect w ->
  In l (EditorState.layers (World.state w)) ->
  0.05 <= Layer.scale l.
Proof.
  intros Hw Hl.
  destruct (reachable_floored env rect w Hw) as [H _].
  revert l Hl; now apply Forall_forall.
Qed.

Lemma intrinsic_update i u ls :
  map intrinsic
    (map (fun k => if String.eqb (Layer.id k) i then merge k u else k) ls)
  = map intrinsic ls.
Proof.
  rewrite map_map; apply map_ext; intros k.
  now destruct (String.eqb (Layer.id k) i).
Qed.

Lemma controlsInput_intrinsic u w :
  map intrinsic (EditorState.layers (World.state (controlsInput u w)))
  = map intrinsic (EditorState.layers (World.state w)).
Proof.
  unfold controlsInput.
  destruct (EditorState.selectedLayerId (World.state w)); [|reflexivity].
  destruct (find_layer _ _); [|reflexivity].
  apply intrinsic_update.
Qed.

(** No event reorders the layers or changes the id, source, name, width
    or height of one: an event keeps the list of these as it is, except
    that a loaded foreground image appends one layer at the end and a
    deletion filters one id out. *)
Theorem step_keeps_intrinsic ev w w' :
  step env rect ev w = Some w' ->
  let before := EditorState.layers (World.state w) in
  let after := EditorState.layers (World.state w') in
  map intrinsic after = map intrinsic before
  \/ (exists newId url fileName size,
        ev = ForegroundLoaded newId url fileName
        /\ Env.decode env url = Some size
        /\ after
           = before
             ++ [Layer.mk newId url fileName 50 50 1 0
                   (CanvasDimensions.width size)
                   (CanvasDimensions.height size) true])
  \/ (exists i,
        ev = DeleteLayer i
        /\ after
           = filter (fun l => negb (String.eqb (Layer.id l) i)) before).
Proof.
  intros Hstep before after; unfold before, after; clear before after.
  destruct ev; simpl in Hstep;
    try (inversion Hstep; subst w'; clear Hstep).
  - now left.
  - left; unfold backgroundOnload; now destruct (Env.decode env url).
  - unfold foregroundOnload.
    destruct (Env.decode env url) as [size|] eqn:E; [|now left].
    right; left; exists newId, url, fileName, size; auto.
  - now left.
  - right; right; exists i; auto.
  - left; simpl; rewrite map_map; apply map_ext; intros k.
    now destruct (String.eqb (Layer.id k) i).
  - left; apply controlsInput_intrinsic.
  - left; apply controlsInput_intrinsic.
  - left; apply controlsInput_intrinsic.
  - left; apply controlsInput_intrinsic.
  - left; unfold handleWheel.
    destruct (EditorState.selectedLayerId (World.state w)) as [sel|];
      [|reflexivity].
    destruct (truthy_string sel); [|reflexivity].
    destruct (find_layer _ _); [|reflexivity].
    apply intrinsic_update.
  - left; simpl; now destruct (World.isDraggingRef w).
  - left; unfold handlePointerDown.
    destruct (find_layer _ _); simpl; now destruct (same_id _ _).
  - left; unfold pointerMove in Hstep.
    destruct (handlePointerMove rect _ _ _ e) as [r [| j u |]];
      inversion Hstep; subst w'; [reflexivity|].
    apply intrinsic_update.
  - left; unfold handlePointerUp; now destruct (World.dragState w).
Qed.

Lemma handlePointerMove_idle sel r e :
  handlePointerMove rect None sel r e = (r, NoUpdate).
Proof. reflexivity. Qed.

(** Once the pointer is released the session is over: pointer moves
    that follow change nothing. *)
Theorem moves_after_pointerUp es w :
  World.dragState (handlePointerUp w) = None
  /\ pointerMoves rect es (handlePointerUp w) = Some (handlePointerUp w).
Proof.
  assert (Hd : World.dragState (handlePointerUp w) = None).
  { unfold handlePointerUp; now destruct (World.dragState w) eqn:E. }
  split; [exact Hd|].
  generalize dependent (handlePointerUp w); intros w0 Hd.
  induction es as [|e es IH]; simpl; [reflexivity|].
  unfold pointerMove; rewrite Hd, handlePointerMove_idle.
  destruct w0; simpl in *; subst; exact IH.
Qed.

Lemma pointerMove_dragging e w w' ds i :
  World.dragState w = Some ds ->
  EditorState.selectedLayerId (World.state w) = Some i ->
  truthy_string i = true ->
  pointerMove rect e w = Some w' ->
  World.isDraggingRef w' = true.
Proof.
  intros Hd Hs Ht; unfold pointerMove, handlePointerMove.
  rewrite Hd, Hs, Ht.
  destruct (match DragState.mode ds with
            | move => _ | resize => _ | rotate => _ end);
    intros H; inversion H; reflexivity.
Qed.

Lemma pointerMoves_dragging es : forall e w w' ds i,
  World.dragState w = Some ds ->
  EditorState.selectedLayerId (World.state w) = Some i ->
  truthy_string i = true ->
  pointerMoves rect (e :: es) w = Some w' ->
  World.isDraggingRef w' = true.
Proof.
  induction es as [|e' es IH]; intros e w w' ds i Hd Hs Ht Hrun;
    simpl in Hrun;
    destruct (pointerMove rect e w) as [w1|] eqn:E; try discriminate.
  - inversion Hrun; subst w'.
    exact (pointerMove_dragging e w w1 ds i Hd Hs Ht E).
  - destruct (pointerMove_frame rect e w w1 E) as (Hd1 & Hs1 & _).
    apply (IH e' w1 w' ds i); [congruence | congruence | exact Ht|].
    exact Hrun.
Qed.

(** The click that ends a drag does not clear the selection, the next
    click on the background does; and a pointer-down and pointer-up with
    no move between them leave the flag down, so the click that follows
    clears the selection. *)
Theorem click_after_drag e0 i m h e es w l w1 :
  find_layer i (EditorState.layers (World.state w)) = Some l ->
  truthy_string i = true ->
  pointerMoves rect (e :: es) (handlePointerDown rect e0 i m h w) = Some w1 ->
  let w2 := handleBackgroundClick (handlePointerUp w1) in
  EditorState.selectedLayerId (World.state w2) = Some i
  /\ World.isDraggingRef w2 = false
  /\ EditorState.selectedLayerId (World.state (handleBackgroundClick w2))
     = None
  /\ EditorState.selectedLayerId
       (World.state
          (handleBackgroundClick
             (handlePointerUp (handlePointerDown rect e0 i m h w))))
     = None.
Proof.
  intros Hf Ht Hrun w2.
  destruct (pointerDown_state rect e0 i m h w l Hf) as [Hsel _].
  assert (Hd : exists ds,
             World.dragState (handlePointerDown rect e0 i m h w) = Some ds).
  { unfold handlePointerDown; rewrite Hf; eexists; reflexivity. }
  destruct Hd as [ds Hd].
  assert (Hflag := pointerMoves_dragging es e _ w1 ds i Hd Hsel Ht Hrun).
  destruct (pointerMoves_frame rect _ _ _ Hrun) as [_ Hsel1].
  rewrite Hsel in Hsel1.
  assert (Hup : World.isDraggingRef (handlePointerUp w1) = true
                /\ EditorState.selectedLayerId
                     (World.state (handlePointerUp w1)) = Some i).
  { unfold handlePointerUp; destruct (World.dragState w1); auto. }
  destruct Hup as [Hup1 Hup2].
  unfold w2, handleBackgroundClick; simpl.
  rewrite Hup1; simpl; rewrite Hup2.
  repeat split.
  unfold handlePointerUp, handlePointerDown; rewrite Hf; reflexivity.
Qed.

(** The wheel sets the scale of the selected layer to its scale minus
    deltaY / 1000, clamped to [0.1, 5]: to 0.1 when that value is below
    0.1, to 5 when it is above 5, to the value itself otherwise; no other
    field of the layer changes. *)
Theorem wheel_clamped deltaY w sel l :
  EditorState.selectedLayerId (World.state w) = Some sel ->
  truthy_string sel = true ->
  find_layer sel (EditorState.layers (World.state w)) = Some l ->
  let v := Layer.scale l - deltaY * 0.001 in
  exists s,
    find_layer sel (EditorState.layers (World.state (handleWheel deltaY w)))
    = Some (Layer.mk (Layer.id l) (Layer.src l) (Layer.name l) (Layer.x l)
              (Layer.y l) s (Layer.rotation l) (Layer.width l)
              (Layer.height l) (Layer.visible l))
    /\ (v < 0.1 -> s = 0.1)
    /\ (0.1 <= v <= 5 -> s = v)
    /\ (5 < v -> s = 5).
Proof.
  intros Hs Ht Hf v.
  exists (Rmax 0.1 (Rmin 5 v)).
  split; [|split; [|split]].
  - unfold handleWheel; rewrite Hs, Ht, Hf; simpl.
    now rewrite (find_layer_update sel _ _ l Hf).
  - intros H; rewrite Rmin_right by lra.
    apply Rmax_left; lra.
  - intros [H1 H2]; rewrite Rmin_right by lra.
    now apply Rmax_right.
  - intros H; rewrite Rmin_left by lra.
    apply Rmax_right; lra.
Qed.

Theorem wheel_unselected deltaY w :
  (EditorState.selectedLayerId (World.state w) = None
   \/ (exists sel,
         EditorState.selectedLayerId (World.state w) = Some sel
         /\ find_layer sel (EditorState.layers (World.state w)) = None)) ->
  handleWheel deltaY w = w.
Proof.
  unfold handleWheel; intros [H | (sel & H & Hf)]; rewrite H;
    [reflexivity|].
  rewrite Hf; now destruct (truthy_string sel).
Qed.

(** The load handlers of two backgrounds run in any order: when the
    first background's image loads after the second's, the editor keeps
    the first one's size, and the export of the second background has the
    first one's dimensions. *)
Theorem stale_background_onload a b sizeA sizeB w :
  Env.mounted env = true ->
  Env.context2d env = true ->
  truthy_string b = true ->
  Env.decode env a = Some sizeA ->
  Env.decode env b = Some sizeB ->
  let w' :=
    backgroundOnload env a
      (backgroundOnload env b
         (handleUploadBackground b (handleUploadBackground a w))) in
  EditorState.backgroundSrc (World.state w') = Some b
  /\ World.bgSize w' = sizeA
  /\ exists calls log,
       handleDownload env w'
       = Download (CanvasDimensions.width sizeA)
           (CanvasDimensions.height sizeA)
           (Ctx.drawImage b 0 0 (CanvasDimensions.width sizeA)
              (CanvasDimensions.height sizeA) :: calls) log.
Proof.
  intros Hm Hc Ht Ha Hb w'.
  assert (Hsrc : EditorState.backgroundSrc (World.state w') = Some b).
  { unfold w', backgroundOnload; now rewrite Ha, Hb. }
  assert (Hsize : World.bgSize w' = sizeA).
  { unfold w', backgroundOnload; now rewrite Ha, Hb. }
  split; [exact Hsrc|]; split; [exact Hsize|].
  assert (Hl : loads env b = true) by (unfold loads; now rewrite Hb).
  do 2 eexists.
  rewrite (handleDownload_runs env w' b Hm Hc Hsrc Ht Hl), Hsize.
  reflexivity.
Qed.

(** A foreground image that loads becomes the last layer: the layers
    found by id are found as before (also under the new layer's id, if it
    was taken), and the export draws the new layer after all the others.
    An image that fails to load adds nothing. *)
Theorem foreground_on_top newId url fileName w :
  let w' := foregroundOnload env newId url fileName w in
  let before := EditorState.layers (World.state w) in
  let after := EditorState.layers (World.state w') in
  (Env.decode env url = None -> w' = w)
  /\ (forall size, Env.decode env url = Some size ->
        let new := Layer.mk newId url fileName 50 50 1 0
                     (CanvasDimensions.width size)
                     (CanvasDimensions.height size) true in
        after = before ++ [new]
        /\ (forall j l, find_layer j before = Some l ->
                        find_layer j after = Some l)
        /\ drawLayers env after
           = (fst (drawLayers env before) ++ layerCalls new,
              snd (drawLayers env before))).
Proof.
  intros w' before after; subst after before w'.
  unfold foregroundOnload; split.
  - intros E; now rewrite E.
  - intros size E; rewrite E; simpl.
    set (new := Layer.mk newId url fileName 50 50 1 0
                  (CanvasDimensions.width size)
                  (CanvasDimensions.height size) true).
    split; [reflexivity|]; split.
    + intros j l Hf; unfold find_layer in *.
      induction (EditorState.layers (World.state w)) as [|k ls IH];
        simpl in *; [discriminate|].
      destruct (String.eqb (Layer.id k) j); [exact Hf | now apply IH].
    + rewrite drawLayers_app.
      assert (Hn : drawLayers env [new] = (layerCalls new, [])).
      { simpl; unfold loads; rewrite E; reflexivity. }
      rewrite Hn; simpl; now rewrite app_nil_r.
Qed.

End EventInvariants.

(** ** Export: when it runs and what it accounts for *)

Section ExportAccounts.

Variable env : Env.t.

(** The export produces a download exactly when the canvas element is
    mounted, a 2D context is available and the background source is a
    non-empty URL whose image loads; with all of these but an image that
    does not load, the promise of the background rejects. *)
Theorem export_runs_iff w :
  ((exists width height calls log,
      handleDownload env w = Download width height calls log)
   <-> (Env.mounted env = true /\ Env.context2d env = true
        /\ exists bg,
             EditorState.backgroundSrc (World.state w) = Some bg
             /\ truthy_string bg = true /\ loads env bg = true))
  /\ (handleDownload env w = BackgroundRejected
      <-> (Env.mounted env = true /\ Env.context2d env = true
           /\ exists bg,
                EditorState.backgroundSrc (World.state w) = Some bg
                /\ truthy_string bg = true /\ loads env bg = false)).
Proof.
  unfold handleDownload.
  destruct (Env.mounted env), (Env.context2d env),
    (EditorState.backgroundSrc (World.state w)) as [bg|];
    try destruct (truthy_string bg) eqn:Et;
    try destruct (loads env bg) eqn:El;
    try destruct (drawLayers env _) as [calls log];
    (split; split;
     [ intros (a & b & c & d & H); try discriminate H
     | intros (H1 & H2 & bg' & H3 & H4 & H5);
       try discriminate; try (inversion H3; subst bg'; congruence)
     | intros H; try discriminate H
     | intros (H1 & H2 & bg' & H3 & H4 & H5);
       try discriminate; try (inversion H3; subst bg'; congruence) ]);
    try (repeat split; eauto; fail);
    try (do 4 eexists; reflexivity).
Qed.

Lemma loaded_failed_visible ls :
  (List.length
     (filter (fun l => Layer.visible l && loads env (Layer.src l)) ls)
   + List.length
       (filter (fun l => Layer.visible l && negb (loads env (Layer.src l)))
          ls)
   = List.length (filter Layer.visible ls))%nat.
Proof.
  induction ls as [|l ls IH]; simpl; [reflexivity|].
  destruct (Layer.visible l); simpl; [|exact IH].
  destruct (loads env (Layer.src l)); simpl; rewrite <- IH;
    [reflexivity | now rewrite Nat.add_succ_r].
Qed.

(** An export that runs accounts for every visible layer once.  Its
    raster holds the background, under the identity and stretched to the
    canvas size, and then, in list order, exactly the visible layers whose
    image loads, each painted from its own source under its own
    translate-rotate-scale matrix; its log holds, in list order, exactly
    the names of the visible layers whose image does not load.  A visible
    layer is in one of the two and not in the other, a hidden layer in
    neither. *)
Theorem export_accounts w bg :
  Env.mounted env = true ->
  Env.context2d env = true ->
  EditorState.backgroundSrc (World.state w) = Some bg ->
  truthy_string bg = true ->
  loads env bg = true ->
  let layers := EditorState.layers (World.state w) in
  let width := CanvasDimensions.width (World.bgSize w) in
  let height := CanvasDimensions.height (World.bgSize w) in
  let painted :=
    filter (fun l => Layer.visible l && loads env (Layer.src l)) layers in
  let logged :=
    filter (fun l => Layer.visible l && negb (loads env (Layer.src l)))
      layers in
  let paintOf := fun l =>
    Ctx.mkPaint (Layer.src l)
      (Matrix.mul
         (Matrix.mul
            (Matrix.mul Matrix.identity
               (Matrix.translation (Layer.x l + Layer.width l / 2)
                  (Layer.y l + Layer.height l / 2)))
            (Matrix.rotation (Layer.rotation l * PI / 180)))
         (Matrix.scaling (Layer.scale l) (Layer.scale l)))
      (- Layer.width l / 2) (- Layer.height l / 2)
      (Layer.width l) (Layer.height l) in
  (exists calls,
     handleDownload env w
     = Download width height calls (map Layer.name logged))
  /\ raster (handleDownload env w)
     = Some (width, height,
             Ctx.mkPaint bg Matrix.identity 0 0 width height
             :: map paintOf painted)
  /\ (forall l, In l layers -> Layer.visible l = true ->
        (In l painted /\ ~ In l logged) \/ (In l logged /\ ~ In l painted))
  /\ (forall l, In l painted \/ In l logged ->
        In l layers /\ Layer.visible l = true)
  /\ (List.length painted + List.length logged
      = List.length (filter Layer.visible layers))%nat.
Proof.
  intros Hm Hc Hb Ht Hl layers width height painted logged paintOf.
  assert (E := handleDownload_runs env w bg Hm Hc Hb Ht Hl).
  rewrite drawLayers_calls, drawLayers_log in E.
  fold layers width height logged in E.
  split; [eexists; exact E|]; split; [|split; [|split]].
  - rewrite E; unfold raster.
    unfold Ctx.run at 1; simpl fold_left.
    fold (Ctx.run (flat_map layerCalls (drawn env layers))).
    rewrite run_layers by reflexivity.
    reflexivity.
  - intros l Hin Hv; unfold painted, logged.
    destruct (loads env (Layer.src l)) eqn:El; [left | right]; split.
    + apply filter_In; split; [exact Hin | now rewrite Hv, El].
    + intros H; apply filter_In in H; destruct H as [_ H].
      rewrite Hv, El in H; discriminate.
    + apply filter_In; split; [exact Hin | now rewrite Hv, El].
    + intros H; apply filter_In in H; destruct H as [_ H].
      rewrite Hv, El in H; discriminate.
  - intros l [H | H]; apply filter_In in H; destruct H as [Hin H];
      apply andb_true_iff in H; tauto.
  - apply loaded_failed_visible.
Qed.

(** With no visible layer (none at all, or all hidden) the export paints
    the background stretched to the canvas size and nothing else, and
    logs nothing. *)
Theorem export_background_only w bg :
  Env.mounted env = true ->
  Env.context2d env = true ->
  EditorState.backgroundSrc (World.state w) = Some bg ->
  truthy_string bg = true ->
  loads env bg = true ->
  (forall l, In l (EditorState.layers (World.state w)) ->
             Layer.visible l = false) ->
  let width := CanvasDimensions.width (World.bgSize w) in
  let height := CanvasDimensions.height (World.bgSize w) in
  handleDownload env w
  = Download width height [Ctx.drawImage bg 0 0 width height] []
  /\ raster (handleDownload env w)
     = Some (width, height,
             [Ctx.mkPaint bg Matrix.identity 0 0 width height]).
Proof.
  intros Hm Hc Hb Ht Hl Hv width height.
  assert (Hd : drawLayers env (EditorState.layers (World.state w))
               = ([], [])).
  { induction (EditorState.layers (World.state w)) as [|l ls IH];
      [reflexivity|].
    simpl; rewrite IH by (intros k Hk; apply Hv; now right).
    now rewrite (Hv l (or_introl eq_refl)). }
  rewrite (handleDownload_runs env w bg Hm Hc Hb Ht Hl), Hd.
  split; reflexivity.
Qed.

End ExportAccounts.

(** ** Export and preview of special layers *)

Section Frames.

(** A layer that is not rotated is painted scaled about its center; at
    scale 1 every point of its image lands on the layer's box at
    (x, y). *)
Theorem unrotated_layer_frame l u v :
  Layer.rotation l = 0 ->
  Ctx.lands (layerPaint l) u v
  = Point.mk
      (Layer.x l + Layer.width l / 2
       + Layer.scale l * (u - Layer.width l / 2))
      (Layer.y l + Layer.height l / 2
       + Layer.scale l * (v - Layer.height l / 2))
  /\ (Layer.scale l = 1 ->
      Ctx.lands (layerPaint l) u v = Point.mk (Layer.x l + u) (Layer.y l + v)).
Proof.
  intros Hr.
  unfold Ctx.lands, layerPaint, Matrix.apply, Matrix.mul, Matrix.identity,
    Matrix.translation, Matrix.rotation, Matrix.scaling; simpl.
  rewrite Hr.
  replace (0 * PI / 180) with 0 by lra.
  rewrite cos_0, sin_0.
  split; [f_equal; lra|].
  intros Hs; rewrite Hs; f_equal; lra.
Qed.

(** The pivot a pointer-down records for a handle is the point where
    the preview shows, and the export paints, the opposite corner. *)
Theorem pivot_is_shown_corner l h :
  let p := oppositeCorner l h in
  pivotWorldOf l h = previewPoint l (Point.x p) (Point.y p)
  /\ pivotWorldOf l h = Ctx.lands (layerPaint l) (Point.x p) (Point.y p).
Proof.
  intros p.
  assert (H : pivotWorldOf l h = previewPoint l (Point.x p) (Point.y p)).
  { unfold pivotWorldOf, previewPoint; fold p; simpl.
    f_equal; field. }
  split; [exact H|].
  now rewrite layerPaint_preview.
Qed.

End Frames.

(** ** Rotating a point about a center *)

Section RotatePoint.

Lemma sin2_cos2_mul a : sin a * sin a + cos a * cos a = 1.
Proof. assert (H := sin2_cos2 a); unfold Rsqr in H; exact H. Qed.

Lemma rotated_distance x y cx cy rad :
  let p := rotatePointAroundCenter x y cx cy rad in
  hypot (Point.x p - cx) (Point.y p - cy) = hypot (x - cx) (y - cy).
Proof.
  unfold rotatePointAroundCenter, hypot; simpl.
  f_equal.
  replace ((cos rad * (x - cx) - sin rad * (y - cy) + cx - cx)
           * (cos rad * (x - cx) - sin rad * (y - cy) + cx - cx)
           + (sin rad * (x - cx) + cos rad * (y - cy) + cy - cy)
             * (sin rad * (x - cx) + cos rad * (y - cy) + cy - cy))
    with (((x - cx) * (x - cx) + (y - cy) * (y - cy))
          * (sin rad * sin rad + cos rad * cos rad)) by ring.
  rewrite sin2_cos2_mul; ring.
Qed.

(** [rotatePointAroundCenter] keeps the distance to the center, and
    leaves the center where it is. *)
Theorem rotatePoint_distance x y cx cy rad :
  let p := rotatePointAroundCenter x y cx cy rad in
  hypot (Point.x p - cx) (Point.y p - cy) = hypot (x - cx) (y - cy)
  /\ rotatePointAroundCenter cx cy cx cy rad = Point.mk cx cy.
Proof.
  split; [apply rotated_distance|].
  unfold rotatePointAroundCenter; f_equal; ring.
Qed.

(** Rotating by [a] and then by [b] is rotating by [a + b]; rotating by
    0 changes nothing, so rotating back by [- a] undoes a rotation. *)
Theorem rotatePoint_compose x y cx cy a b :
  let p := rotatePointAroundCenter x y cx cy a in
  rotatePointAroundCenter (Point.x p) (Point.y p) cx cy b
  = rotatePointAroundCenter x y cx cy (a + b)
  /\ rotatePointAroundCenter x y cx cy 0 = Point.mk x y
  /\ rotatePointAroundCenter (Point.x p) (Point.y p) cx cy (- a)
     = Point.mk x y.
Proof.
  intros p.
  assert (Hc : rotatePointAroundCenter (Point.x p) (Point.y p) cx cy b
               = rotatePointAroundCenter x y cx cy (a + b)).
  { unfold p, rotatePointAroundCenter; simpl.
    rewrite cos_plus, sin_plus; f_equal; ring. }
  assert (H0 : rotatePointAroundCenter x y cx cy 0 = Point.mk x y).
  { unfold rotatePointAroundCenter; rewrite cos_0, sin_0; f_equal; ring. }
  split; [exact Hc|]; split; [exact H0|].
  unfold p, rotatePointAroundCenter; simpl.
  rewrite cos_neg, sin_neg.
  assert (H := sin2_cos2_mul a).
  f_equal.
  - replace (cos a * (cos a * (x - cx) - sin a * (y - cy) + cx - cx)
             - - sin a * (sin a * (x - cx) + cos a * (y - cy) + cy - cy)
             + cx)
      with ((sin a * sin a + cos a * cos a) * (x - cx) + cx) by ring.
    rewrite H; ring.
  - replace (- sin a * (cos a * (x - cx) - sin a * (y - cy) + cx - cx)
             + cos a * (sin a * (x - cx) + cos a * (y - cy) + cy - cy)
             + cy)
      with ((sin a * sin a + cos a * cos a) * (y - cy) + cy) by ring.
    rewrite H; ring.
Qed.

(** The pivot of a resize gesture is the scaled opposite corner rotated
    about the layer's center by the layer's rotation; whatever the handle
    and the rotation it lies at the scaled half diagonal from the
    center. *)
Theorem pivot_on_circle l h :
  let cx := Layer.x l + Layer.width l / 2 in
  let cy := Layer.y l + Layer.height l / 2 in
  let p := oppositeCorner l h in
  let dx := (Point.x p - Layer.width l / 2) * Layer.scale l in
  let dy := (Point.y p - Layer.height l / 2) * Layer.scale l in
  pivotWorldOf l h
  = rotatePointAroundCenter (cx + dx) (cy + dy) cx cy
      (toRad (Layer.rotation l))
  /\ hypot (Point.x (pivotWorldOf l h) - cx) (Point.y (pivotWorldOf l h) - cy)
     = hypot (Layer.width l / 2 * Layer.scale l)
             (Layer.height l / 2 * Layer.scale l).
Proof.
  intros cx cy p dx dy.
  assert (E : pivotWorldOf l h
              = rotatePointAroundCenter (cx + dx) (cy + dy) cx cy
                  (toRad (Layer.rotation l))).
  { unfold pivotWorldOf, rotatePointAroundCenter; fold p cx cy dx dy; simpl.
    f_equal; ring. }
  split; [exact E|].
  rewrite E.
  rewrite (rotated_distance (cx + dx) (cy + dy) cx cy
             (toRad (Layer.rotation l))).
  unfold hypot, dx, dy, p; f_equal.
  destruct h; simpl; field.
Qed.

End RotatePoint.

(** ** More on the gestures *)

Section GestureLaws.

Variable env : Env.t.
Variable rect : option DOMRect.t.

(** The farther the pointer from the pivot, the larger the scale a
    resize update carries: never smaller, and strictly larger once the
    nearer pointer is off the 0.05 floor. *)
Theorem resize_scale_monotone sel ds pivot startDist c1 c2 :
  0 < Layer.scale (DragState.startLayerState ds) ->
  0 < startDist ->
  let d1 := hypot (Point.x c1 - Point.x pivot) (Point.y c1 - Point.y pivot) in
  let d2 := hypot (Point.x c2 - Point.x pivot) (Point.y c2 - Point.y pivot) in
  1 <= d1 -> d1 <= d2 ->
  exists u1 u2 s1 s2,
    resizeUpdate sel ds pivot startDist c1 = Update sel u1
    /\ resizeUpdate sel ds pivot startDist c2 = Update sel u2
    /\ Partial.scale u1 = Some s1
    /\ Partial.scale u2 = Some s2
    /\ s1 <= s2
    /\ (d1 < d2 ->
        0.05 <= Layer.scale (DragState.startLayerState ds) * (d1 / startDist) ->
        s1 < s2).
Proof.
  intros Hs Hd d1 d2 H1 H12.
  assert (Hs' : Layer.scale (DragState.startLayerState ds) <> 0) by lra.
  assert (Hd' : startDist <> 0) by lra.
  destruct (resizeUpdate_cases sel ds pivot startDist c1 Hd' Hs')
    as [[Hlt _] | [_ E1]]; [fold d1 in Hlt; lra|].
  destruct (resizeUpdate_cases sel ds pivot startDist c2 Hd' Hs')
    as [[Hlt _] | [_ E2]]; [fold d2 in Hlt; lra|].
  fold d1 in E1; fold d2 in E2.
  do 4 eexists; split; [exact E1|]; split; [exact E2|].
  split; [reflexivity|]; split; [reflexivity|].
  unfold scaleAt.
  set (s := Layer.scale (DragState.startLayerState ds)) in *.
  assert (Hi : 0 < / startDist) by now apply Rinv_0_lt_compat.
  assert (Hm : s * (d1 / startDist) <= s * (d2 / startDist)).
  { unfold Rdiv; apply Rmult_le_compat_l; [lra|].
    apply Rmult_le_compat_r; lra. }
  split.
  - apply Rmax_lub; [apply Rmax_l|].
    apply Rle_trans with (s * (d2 / startDist)); [exact Hm | apply Rmax_r].
  - intros Hlt Hfloor.
    rewrite (Rmax_right _ _ Hfloor).
    apply Rlt_le_trans with (s * (d2 / startDist)); [|apply Rmax_r].
    unfold Rdiv; apply Rmult_lt_compat_l; [lra|].
    apply Rmult_lt_compat_r; lra.
Qed.

Lemma resizeTo_same_scale ds pivot l :
  DragState.startLayerState ds = l ->
  DragState.centerWorldStart ds
  = Point.mk (Layer.x l + Layer.width l / 2)
             (Layer.y l + Layer.height l / 2) ->
  Layer.scale l <> 0 ->
  merge l (resizeTo ds pivot (Layer.scale l)) = l.
Proof.
  intros Hs Hc Hn; unfold merge, resizeTo; rewrite Hs, Hc.
  destruct l; simpl in *; f_equal; field; exact Hn.
Qed.

Lemma resizeTo_unplaced ds pivot newScale k l :
  unplaced k = unplaced l ->
  unplaced (merge k (resizeTo ds pivot newScale)) = unplaced l
  /\ merge k (resizeTo ds pivot newScale)
     = merge l (resizeTo ds pivot newScale).
Proof.
  unfold unplaced, merge, resizeTo; simpl; intros H.
  inversion H; split; [reflexivity | congruence].
Qed.

Lemma dragging_step i l ds pivot startDist e w :
  DragState.mode ds = resize ->
  DragState.startLayerState ds = l ->
  DragState.pivotWorld ds = Some pivot ->
  DragState.startDist ds = Some startDist ->
  Layer.scale l <> 0 ->
  dragging i l ds w ->
  exists w', pointerMove rect e w = Some w' /\ dragging i l ds w'.
Proof.
  intros Hm Hs Hp Hd Hn (Hds & Hsel & k & Hk & Hu).
  assert (He := resize_emitted rect ds pivot startDist i
                  (World.isDraggingRef w) e Hm Hp Hd).
  unfold pointerMove; rewrite Hds, Hsel.
  destruct (handlePointerMove rect (Some ds) (Some i)
              (World.isDraggingRef w) e) as [r em].
  simpl in He; subst em.
  assert (Hsame : dragging i l ds
                    (World.mk (World.state w) (Some ds) (World.bgSize w) r)).
  { split; [reflexivity|]; split; [exact Hsel|]; exists k; auto. }
  destruct (truthy_string i); [|eexists; split; [reflexivity | exact Hsame]].
  destruct (Req_dec_T startDist 0) as [E | N];
    [eexists; split; [reflexivity | exact Hsame]|].
  assert (Hn' : Layer.scale (DragState.startLayerState ds) <> 0)
    by now rewrite Hs.
  destruct (resizeUpdate_cases i ds pivot startDist
              (getLocalCoords rect e) N Hn') as [[_ H] | [_ H]];
    rewrite H; (eexists; split; [reflexivity|]); [exact Hsame|].
  split; [reflexivity|]; split; [exact Hsel|].
  eexists; split; [simpl; apply find_layer_update; exact Hk|].
  now apply resizeTo_unplaced.
Qed.

Lemma dragging_run i l ds pivot startDist es : forall w,
  DragState.mode ds = resize ->
  DragState.startLayerState ds = l ->
  DragState.pivotWorld ds = Some pivot ->
  DragState.startDist ds = Some startDist ->
  Layer.scale l <> 0 ->
  dragging i l ds w ->
  exists w', pointerMoves rect es w = Some w' /\ dragging i l ds w'.
Proof.
  induction es as [|e es IH]; intros w Hm Hs Hp Hd Hn Hw; simpl.
  - exists w; auto.
  - destruct (dragging_step i l ds pivot startDist e w Hm Hs Hp Hd Hn Hw)
      as (w1 & E & H1).
    rewrite E; now apply IH.
Qed.

(** A resize gesture whose pointer, wherever it has been meanwhile,
    comes back to its start distance from the pivot (back to where it
    went down, for one) gives the layer back as it was. *)
Theorem resize_back_to_start e0 es e1 i h w l :
  Reachable env rect w ->
  find_layer i (EditorState.layers (World.state w)) = Some l ->
  truthy_string i = true ->
  let pivot := pivotWorldOf l h in
  let p0 := getLocalCoords rect e0 in
  let p1 := getLocalCoords rect e1 in
  let startDist :=
    hypot (Point.x p0 - Point.x pivot) (Point.y p0 - Point.y pivot) in
  let currDist :=
    hypot (Point.x p1 - Point.x pivot) (Point.y p1 - Point.y pivot) in
  currDist = startDist ->
  1 <= startDist ->
  exists w',
    pointerMoves rect (es ++ [e1])
      (handlePointerDown rect e0 i resize (Some h) w)
    = Some w'
    /\ find_layer i (EditorState.layers (World.state w')) = Some l.
Proof.
  intros Hw Hf Ht pivot p0 p1 startDist currDist E Hge.
  destruct (reachable_floored env rect w Hw) as [Hall _].
  assert (Hl : 0.05 <= Layer.scale l).
  { assert (Hin := find_layer_In i _ l Hf).
    exact (proj1 (Forall_forall _ _) Hall l Hin). }
  assert (Hn : Layer.scale l <> 0) by lra.
  assert (Hd : startDist <> 0) by lra.
  assert (Hds := pointerDown_resize rect e0 i h w l Hf); cbv zeta in Hds.
  fold pivot p0 startDist in Hds.
  destruct (pointerDown_state rect e0 i resize (Some h) w l Hf) as [Hsel Hls].
  set (w0 := handlePointerDown rect e0 i resize (Some h) w) in *.
  match type of Hds with _ = Some ?d => set (ds := d) in * end.
  assert (H0 : dragging i l ds w0).
  { split; [exact Hds|]; split; [exact Hsel|].
    exists l; split; [now rewrite Hls | reflexivity]. }
  destruct (dragging_run i l ds pivot startDist es w0
              eq_refl eq_refl eq_refl eq_refl Hn H0)
    as (w1 & Hrun & Hds1 & Hsel1 & k & Hk & Hu).
  rewrite pointerMoves_app, Hrun; simpl.
  assert (He := resize_emitted rect ds pivot startDist i
                  (World.isDraggingRef w1) e1 eq_refl eq_refl eq_refl).
  rewrite Ht in He.
  destruct (Req_dec_T startDist 0) as [Z | _]; [contradiction|].
  destruct (resizeUpdate_cases i ds pivot startDist p1 Hd Hn)
    as [[Hlt _] | [_ H]]; [fold currDist in Hlt; lra|].
  fold currDist in H; unfold p1 in H; rewrite H in He.
  unfold pointerMove; rewrite Hds1, Hsel1.
  destruct (handlePointerMove rect (Some ds) (Some i) _ e1) as [r em].
  simpl in He; subst em.
  eexists; split; [reflexivity|].
  simpl; rewrite (find_layer_update i _ _ k Hk); f_equal.
  rewrite (proj2 (resizeTo_unplaced ds pivot _ k l Hu)).
  replace (scaleAt ds startDist currDist) with (Layer.scale l);
    [now apply resizeTo_same_scale|].
  unfold scaleAt; cbn [DragState.startLayerState ds]; rewrite E.
  replace (Layer.scale l * (startDist / startDist)) with (Layer.scale l)
    by (field; exact Hd).
  now rewrite (Rmax_right _ _ Hl).
Qed.

Lemma atan2_range y x : - PI < atan2 y x <= PI.
Proof.
  assert (Hpi := PI_RGT_0).
  assert (Hb := atan_bound (y / x)).
  unfold atan2.
  destruct (Rlt_dec 0 x) as [Hx | Hx]; [lra|].
  destruct (Rlt_dec x 0) as [Hx' | Hx'].
  - destruct (Rle_dec 0 y) as [Hy | Hy].
    + assert (Hq : y / x <= 0).
      { unfold Rdiv.
        assert (Hi : / x < 0) by now apply Rinv_lt_0_compat.
        nra. }
      assert (Ha : atan (y / x) <= 0).
      { destruct Hq as [Hq | Hq].
        - apply Rlt_le; rewrite <- atan_0; now apply atan_increasing.
        - rewrite Hq, atan_0; lra. }
      lra.
    + assert (Hq : 0 < y / x).
      { unfold Rdiv.
        assert (Hi : / x < 0) by now apply Rinv_lt_0_compat.
        nra. }
      assert (Ha : 0 < atan (y / x)).
      { rewrite <- atan_0; now apply atan_increasing. }
      lra.
  - destruct (Rlt_dec 0 y); [lra|].
    destruct (Rlt_dec y 0); lra.
Qed.

Lemma degrees_within_a_turn a b :
  - PI < a <= PI -> - PI < b <= PI -> -360 < (a - b) * 180 / PI < 360.
Proof.
  intros Ha Hb.
  assert (Hpi := PI_RGT_0).
  replace ((a - b) * 180 / PI) with ((a - b) * (180 / PI)) by (field; lra).
  assert (Hk : 0 < 180 / PI) by (apply Rdiv_lt_0_compat; lra).
  assert (E : PI * (180 / PI) = 180) by (field; lra).
  set (k := 180 / PI) in *.
  split; nra.
Qed.

(** One rotate gesture changes the rotation by less than a full turn
    either way, and a pointer back at the position where it went down
    gives the rotation back. *)
Theorem rotate_within_a_turn e0 es e1 i w l :
  find_layer i (EditorState.layers (World.state w)) = Some l ->
  truthy_string i = true ->
  exists w' l',
    pointerMoves rect (es ++ [e1]) (handlePointerDown rect e0 i rotate None w)
    = Some w'
    /\ find_layer i (EditorState.layers (World.state w')) = Some l'
    /\ -360 < Layer.rotation l' - Layer.rotation l < 360
    /\ (getLocalCoords rect e1 = getLocalCoords rect e0 -> l' = l).
Proof.
  intros Hf Ht.
  destruct (rotate_run rect e0 es e1 i None w l Hf Ht)
    as (w' & Hrun & _ & Hfind).
  cbv zeta in Hfind.
  eexists w', _; split; [exact Hrun|]; split; [exact Hfind|].
  assert (Hpi := PI_RGT_0).
  split.
  - simpl.
    match goal with
    | |- _ < ?r + ?d - ?r < _ => replace (r + d - r) with d by ring
    end.
    apply degrees_within_a_turn; apply atan2_range.
  - intros E; rewrite E.
    match goal with
    | |- Layer.mk _ _ _ _ _ _ ?r _ _ _ = _ =>
        replace r with (Layer.rotation l) by (field; lra)
    end.
    now destruct l.
Qed.

(** Move and rotate updates are computed from the snapshot: the layers
    after a run of pointer moves are those after its last move alone. *)
Theorem gesture_path_independent e0 es e i m w l w1 w2 :
  m <> resize ->
  find_layer i (EditorState.layers (World.state w)) = Some l ->
  truthy_string i = true ->
  pointerMoves rect (es ++ [e]) (handlePointerDown rect e0 i m None w)
  = Some w1 ->
  pointerMoves rect [e] (handlePointerDown rect e0 i m None w) = Some w2 ->
  EditorState.layers (World.state w1) = EditorState.layers (World.state w2).
Proof.
  intros Hm Hf Ht H1 H2.
  destruct (pointerDown_state rect e0 i m None w l Hf) as [Hsel _].
  destruct m; [| contradiction |].
  - assert (Hd : exists ds,
               World.dragState (handlePointerDown rect e0 i move None w)
               = Some ds /\ DragState.mode ds = move).
    { unfold handlePointerDown; rewrite Hf; eexists; split; reflexivity. }
    destruct Hd as (ds & Hd & Hmode).
    destruct (move_steps rect ds i es e _ Hd Hmode Hsel Ht) as (a & Ha & La).
    destruct (move_steps rect ds i [] e _ Hd Hmode Hsel Ht) as (b & Hb & Lb).
    simpl app in Hb.
    rewrite Ha in H1; rewrite Hb in H2.
    inversion H1; inversion H2; subst; congruence.
  - assert (Hd : exists ds a0,
               World.dragState (handlePointerDown rect e0 i rotate None w)
               = Some ds /\ DragState.mode ds = rotate
               /\ DragState.startAngle ds = Some a0).
    { unfold handlePointerDown; rewrite Hf; do 2 eexists.
      repeat split. }
    destruct Hd as (ds & a0 & Hd & Hmode & Ha0).
    destruct (rotate_steps rect ds a0 i es e _ Hd Hmode Ha0 Hsel Ht)
      as (a & Ha & La).
    destruct (rotate_steps rect ds a0 i [] e _ Hd Hmode Ha0 Hsel Ht)
      as (b & Hb & Lb).
    simpl app in Hb.
    rewrite Ha in H1; rewrite Hb in H2.
    inversion H1; inversion H2; subst; congruence.
Qed.

End GestureLaws.

(** ** Concrete runs of the properties above *)

Lemma scale_floor_reachable_witness :
  Reachable sampleEnv sampleRect sampleWorld
  /\ In sampleLayer (EditorState.layers (World.state sampleWorld))
  /\ 0.05 <= Layer.scale sampleLayer.
Proof.
  assert (Hin : In sampleLayer (EditorState.layers (World.state sampleWorld)))
    by (simpl; auto).
  split; [exact sample_reachable|]; split; [exact Hin|].
  exact (scale_floor_reachable sampleEnv sampleRect sampleWorld sampleLayer
           sample_reachable Hin).
Defined.

Lemma step_keeps_intrinsic_witness :
  step sampleEnv sampleRect (ToggleVisibility "k3x9f2a") sampleWorld
  = Some (set_state sampleWorld
            (handleToggleVisibility "k3x9f2a" (World.state sampleWorld)))
  /\ (map intrinsic [toggle sampleLayer] = map intrinsic [sampleLayer]
      \/ (exists newId url fileName size,
            ToggleVisibility "k3x9f2a" = ForegroundLoaded newId url fileName
            /\ Env.decode sampleEnv url = Some size
            /\ [toggle sampleLayer]
               = [sampleLayer]
                 ++ [Layer.mk newId url fileName 50 50 1 0
                       (CanvasDimensions.width size)
                       (CanvasDimensions.height size) true])
      \/ (exists i,
            ToggleVisibility "k3x9f2a" = DeleteLayer i
            /\ [toggle sampleLayer]
               = filter (fun l => negb (String.eqb (Layer.id l) i))
                   [sampleLayer])).
Proof.
  split; [reflexivity|].
  exact (step_keeps_intrinsic sampleEnv sampleRect
           (ToggleVisibility "k3x9f2a") sampleWorld _ eq_refl).
Defined.

Lemma click_after_drag_witness :
  exists w1,
    pointerMoves sampleRect [PointerEvent.mk 70 80]
      (handlePointerDown sampleRect (PointerEvent.mk 60 60) "k3x9f2a" move
         None sampleWorld) = Some w1
    /\ EditorState.selectedLayerId
         (World.state (handleBackgroundClick (handlePointerUp w1)))
       = Some "k3x9f2a"%string.
Proof.
  eexists; split; [reflexivity|].
  exact (proj1 (click_after_drag sampleRect (PointerEvent.mk 60 60)
                  "k3x9f2a" move None (PointerEvent.mk 70 80) []
                  sampleWorld sampleLayer _ eq_refl eq_refl eq_refl)).
Defined.

Lemma wheel_clamped_witness :
  let w :=
    set_state sampleWorld
      (handleSelectLayer (Some "k3x9f2a"%string) (World.state sampleWorld)) in
  5 < Layer.scale sampleLayer - (-100000) * 0.001
  /\ Layer.scale sampleLayer - 2000 * 0.001 < 0.1
  /\ find_layer "k3x9f2a"
       (EditorState.layers (World.state (handleWheel (-100000) w)))
     = Some (Layer.mk "k3x9f2a" "blob:fg" "fg.png" 50 50 5 0 200 100 true)
  /\ find_layer "k3x9f2a"
       (EditorState.layers (World.state (handleWheel 2000 w)))
     = Some (Layer.mk "k3x9f2a" "blob:fg" "fg.png" 50 50 0.1 0 200 100 true).
Proof.
  intros w.
  assert (Hi : 5 < Layer.scale sampleLayer - (-100000) * 0.001)
    by (simpl; lra).
  assert (Hl : Layer.scale sampleLayer - 2000 * 0.001 < 0.1)
    by (simpl; lra).
  split; [exact Hi|]; split; [exact Hl|]; split.
  - destruct (wheel_clamped (-100000) w "k3x9f2a" sampleLayer
                eq_refl eq_refl eq_refl) as (s & H1 & _ & _ & H4).
    rewrite H1, (H4 Hi); reflexivity.
  - destruct (wheel_clamped 2000 w "k3x9f2a" sampleLayer
                eq_refl eq_refl eq_refl) as (s & H1 & H2 & _ & _).
    rewrite H1, (H2 Hl); reflexivity.
Defined.

Lemma stale_background_onload_witness :
  exists calls log,
    handleDownload sampleEnv
      (backgroundOnload sampleEnv "blob:big"
         (backgroundOnload sampleEnv "blob:bg"
            (handleUploadBackground "blob:bg"
               (handleUploadBackground "blob:big" initialWorld))))
    = Download 1024 768 (Ctx.drawImage "blob:bg" 0 0 1024 768 :: calls) log.
Proof.
  exact (proj2 (proj2 (stale_background_onload sampleEnv "blob:big"
                         "blob:bg" (CanvasDimensions.mk 1024 768)
                         (CanvasDimensions.mk 800 600) initialWorld
                         eq_refl eq_refl eq_refl eq_refl eq_refl))).
Defined.

Lemma export_accounts_witness :
  let w :=
    World.mk (EditorState.mk (Some "blob:bg"%string)
                [sampleLayer; hiddenLayer; brokenLayer] None 1)
      None (CanvasDimensions.mk 800 600) false in
  loads sampleEnv "blob:bg" = true
  /\ raster (handleDownload sampleEnv w)
     = Some (800, 600,
             [ Ctx.mkPaint "blob:bg" Matrix.identity 0 0 800 600;
               layerPaint sampleLayer ]).
Proof.
  intros w; split; [reflexivity|].
  exact (proj1 (proj2 (export_accounts sampleEnv w "blob:bg"%string
                         eq_refl eq_refl eq_refl eq_refl eq_refl))).
Defined.

Lemma export_background_only_witness :
  let w :=
    World.mk (EditorState.mk (Some "blob:bg"%string) [hiddenLayer] None 1)
      None (CanvasDimensions.mk 800 600) false in
  handleDownload sampleEnv w
  = Download 800 600 [Ctx.drawImage "blob:bg" 0 0 800 600] [].
Proof.
  intros w.
  refine (proj1 (export_background_only sampleEnv w "blob:bg"%string
                   eq_refl eq_refl eq_refl eq_refl eq_refl _)).
  intros l [H | []]; now subst l.
Defined.

Lemma unrotated_layer_frame_witness :
  Layer.rotation sampleLayer = 0
  /\ Layer.scale sampleLayer = 1
  /\ Ctx.lands (layerPaint sampleLayer) 200 100
     = Point.mk (Layer.x sampleLayer + 200) (Layer.y sampleLayer + 100).
Proof.
  split; [reflexivity|]; split; [reflexivity|].
  exact (proj2 (unrotated_layer_frame sampleLayer 200 100 eq_refl) eq_refl).
Defined.

Lemma resize_scale_monotone_witness :
  let ds :=
    DragState.mk resize (Some se) 250 150 sampleLayer (Point.mk 150 100)
      (Some (Point.mk 50 50)) (Some 1) None in
  exists u1 u2 s1 s2,
    resizeUpdate "k3x9f2a" ds (Point.mk 50 50) 1 (Point.mk 53 54)
    = Update "k3x9f2a" u1
    /\ resizeUpdate "k3x9f2a" ds (Point.mk 50 50) 1 (Point.mk 56 58)
       = Update "k3x9f2a" u2
    /\ Partial.scale u1 = Some s1
    /\ Partial.scale u2 = Some s2
    /\ s1 <= s2.
Proof.
  intros ds.
  assert (S1 := hypot_sq (53 - 50) (54 - 50)).
  assert (P1 := hypot_pos (53 - 50) (54 - 50)).
  assert (S2 := hypot_sq (56 - 50) (58 - 50)).
  assert (P2 := hypot_pos (56 - 50) (58 - 50)).
  destruct (resize_scale_monotone "k3x9f2a" ds (Point.mk 50 50) 1
              (Point.mk 53 54) (Point.mk 56 58))
    as (u1 & u2 & s1 & s2 & H1 & H2 & H3 & H4 & H5 & _);
    simpl; try nra.
  exists u1, u2, s1, s2; auto.
Defined.

Lemma resize_back_to_start_witness :
  exists w',
    pointerMoves sampleRect
      ([PointerEvent.mk 450 250; PointerEvent.mk 50 50; PointerEvent.mk 90 70]
       ++ [PointerEvent.mk 250 150])
      (handlePointerDown sampleRect (PointerEvent.mk 250 150) "k3x9f2a"
         resize (Some se) sampleWorld)
    = Some w'
    /\ find_layer "k3x9f2a" (EditorState.layers (World.state w'))
       = Some sampleLayer.
Proof.
  apply (resize_back_to_start sampleEnv sampleRect (PointerEvent.mk 250 150)
           [PointerEvent.mk 450 250; PointerEvent.mk 50 50;
            PointerEvent.mk 90 70]
           (PointerEvent.mk 250 150) "k3x9f2a" se sampleWorld sampleLayer
           sample_reachable eq_refl eq_refl eq_refl).
  rewrite pivot_unrotated; simpl.
  assert (S := hypot_sq (250 - 0 - 50) (150 - 0 - 50)).
  assert (P := hypot_pos (250 - 0 - 50) (150 - 0 - 50)).
  nra.
Defined.

Lemma rotate_within_a_turn_witness :
  exists w' l',
    pointerMoves sampleRect ([] ++ [PointerEvent.mk 149 99])
      (handlePointerDown sampleRect (PointerEvent.mk 149 101) "k3x9f2a"
         rotate None sampleWorld)
    = Some w'
    /\ find_layer "k3x9f2a" (EditorState.layers (World.state w')) = Some l'
    /\ -360 < Layer.rotation l' - Layer.rotation sampleLayer < 360.
Proof.
  destruct (rotate_within_a_turn sampleRect (PointerEvent.mk 149 101) []
              (PointerEvent.mk 149 99) "k3x9f2a" sampleWorld sampleLayer
              eq_refl eq_refl) as (w' & l' & H1 & H2 & H3 & _).
  exists w', l'; auto.
Defined.

Lemma gesture_path_independent_witness :
  exists w1 w2,
    pointerMoves sampleRect
      ([PointerEvent.mk 70 80; PointerEvent.mk 10 20] ++ [PointerEvent.mk 63 57])
      (handlePointerDown sampleRect (PointerEvent.mk 60 60) "k3x9f2a" move
         None sampleWorld) = Some w1
    /\ pointerMoves sampleRect [PointerEvent.mk 63 57]
         (handlePointerDown sampleRect (PointerEvent.mk 60 60) "k3x9f2a" move
            None sampleWorld) = Some w2
    /\ EditorState.layers (World.state w1)
       = EditorState.layers (World.state w2).
Proof.
  assert (N : move <> resize) by discriminate.
  eexists; eexists; split; [reflexivity|]; split; [reflexivity|].
  exact (gesture_path_independent sampleRect (PointerEvent.mk 60 60)
           [PointerEvent.mk 70 80; PointerEvent.mk 10 20]
           (PointerEvent.mk 63 57) "k3x9f2a" move sampleWorld sampleLayer
           _ _ N eq_refl eq_refl eq_refl eq_refl).
Defined.
